(** * spldl: the concurrent chunk downloader and its ordered collector

    A shallow embedding of [internal/downloader] (DownloadSearchResults,
    downloadJobChunks, chunkWorker, getEventChunk, eventChunkCollector) and of
    the result parsers of [internal/splunkclient/jobs.go], with the properties
    of the download engine proved about them. *)

From Stdlib Require Import Ascii.
From stdpp Require Import gmap strings list list_numbers pretty fin_maps.

Open Scope Z_scope.

(** ** Go primitives *)

(** Go's [int] is 64 bits wide on the supported targets; [int_wrap] is the
    two's complement wrap-around of an arithmetic result. *)
Definition int_wrap (z : Z) : Z := (z + 2 ^ 63) `mod` 2 ^ 64 - 2 ^ 63.

(** A Go [error] is modelled by the text of [err.Error()]. *)
Definition error : Type := string.

Inductive result (A : Type) : Type :=
  | Ok (a : A)
  | Err (e : error).
Arguments Ok {A} a.
Arguments Err {A} e.

(** Appending with [strings.Builder] or [bufio.Writer.WriteString]. *)
Definition concat_strings (l : list string) : string := foldr String.app "" l.

(** [slog.Error(msg, "error", err, key, value)]: the process-wide log keeps
    the entries written at error level; the Debug and Info entries carry no
    behaviour and are left out. *)
Record logEntry : Type := slog_Error {
  log_msg : string;
  log_err : error;
  log_attrs : list (string * string)
}.

Definition newline : ascii := "010"%char.

(** [strings.IndexByte(s, c)]: index of the first [c] in [s], or [-1]. *)
Fixpoint strings_IndexByte (s : string) (c : ascii) : Z :=
  match s with
  | "" => -1
  | String a s' =>
      if decide (a = c) then 0
      else let i := strings_IndexByte s' c in
           if decide (i = -1) then -1 else i + 1
  end.

(** The slice expression [s[n:]] for [0 <= n <= len(s)]. *)
Fixpoint string_drop (n : nat) (s : string) : string :=
  match n, s with
  | O, _ => s
  | S n', String _ s' => string_drop n' s'
  | S _, "" => ""
  end.
Definition slice_from (s : string) (i : Z) : string := string_drop (Z.to_nat i) s.

(** ** What the program takes from outside

    The library functions whose results the program only passes along:
    [float64] and its [%.1f] formatting, the [encoding/json] codec at the two
    types it is used at, and [os.Create] on the output path. *)
Class Platform : Type := {
  float64 : Type;
  float64_of_int : Z → float64;
  float64_mul : float64 → float64 → float64;
  (** [fmt.Sprintf("%.1f", x)] *)
  fmt_1f : float64 → string;
  (** [map[string]interface{}], one decoded result row *)
  JSONObject : Type;
  (** [json.Unmarshal] into [SearchJobResults]; only [Results] is read *)
  json_Unmarshal_Results : string → result (list JSONObject);
  (** [json.Marshal] of one result row *)
  json_Marshal : JSONObject → result string;
  (** [os.Create(name)]: [None] when the file was created (or truncated) *)
  os_Create : string → option error
}.

(** ** internal/splunkclient *)

Module splunkclient.

(** The fields of [SearchJobContent] that the downloader reads. *)
Record SearchJobContent `{Platform} : Type := {
  SID : string;
  ResultCount : Z;
  IsDone : bool;
  IsFailed : bool;
  DispatchState : string;
  DoneProgress : float64
}.

Record SearchJobEntry `{Platform} : Type := {
  Name : string;
  ID : string;
  Content : SearchJobContent
}.

Record SplunkSearchResponse `{Platform} : Type := { Entry : list SearchJobEntry }.

(** A [Client] is used through [Get] and [Delete] only; the record holds what
    the server answers to them ([doRequest] already turns a status of 400 or
    more into an error). [json_Unmarshal_Status] is [json.Unmarshal] into
    [SplunkSearchResponse]. *)
Record Client `{Platform} : Type := {
  Get : string → gmap string string → result string;
  Delete : string → gmap string string → result string;
  json_Unmarshal_Status : string → result SplunkSearchResponse
}.

Definition parseCSVResponse (response : string) (offset : Z) : string :=
  if decide (0 < offset) then
    let idx := strings_IndexByte response newline in
    if decide (idx ≠ -1) then slice_from response (idx + 1) else response
  else response.

(** The loop over [unmarshalled.Results]: a row that does not marshal is
    logged and skipped. *)
Fixpoint marshal_lines `{Platform} (results : list JSONObject) : string * list logEntry :=
  match results with
  | [] => ("", [])
  | r :: results' =>
      let '(sb, lg) := marshal_lines results' in
      match json_Marshal r with
      | Err err => (sb, slog_Error "Error marshalling result to JSON" err [] :: lg)
      | Ok line => (line +:+ String newline "" +:+ sb, lg)
      end
  end.

Definition parseJSONResponse `{Platform} (response : string) : string * list logEntry :=
  match json_Unmarshal_Results response with
  | Err err => ("", [slog_Error "Error unmarshalling JSON" err []])
  | Ok results => marshal_lines results
  end.

Definition parseResultsResponse `{Platform}
    (response outputMode : string) (offset : Z) : string * list logEntry :=
  if decide (outputMode = "raw") then (response, [])
  else if decide (outputMode = "csv") then (parseCSVResponse response offset, [])
  else if decide (outputMode = "ndjson") then parseJSONResponse response
  else ("", []).

(** The request of [GetJobResults]: its [path] and its [queryParams]. *)
Definition resultsPath (sid : string) : string :=
  "/services/search/v2/jobs/" +:+ sid +:+ "/results".

Definition resultsQuery (count offset : Z) (outputMode : string) : gmap string string :=
  <["count" := pretty count]>
    (<["offset" := pretty (int_wrap (offset * count))]>
       {["output_mode" := outputMode]}).

Definition GetJobResults `{Platform} (c : Client) (sid : string) (count offset : Z)
    (outputMode : string) : result string * list logEntry :=
  let path := resultsPath sid in
  let queryParams := resultsQuery count offset outputMode in
  match Get c path queryParams with
  | Err err => (Err err, [])
  | Ok response =>
      let '(parsed, lg) := parseResultsResponse response outputMode offset in
      (Ok parsed, lg)
  end.

Definition GetJobStatus `{Platform} (c : Client) (sid : string) : result SearchJobContent :=
  let path := "/services/search/v2/jobs/" +:+ sid in
  match Get c path {["output_mode" := "json"]} with
  | Err err => Err err
  | Ok response =>
      match json_Unmarshal_Status c response with
      | Err err => Err ("error unmarshalling job status: " +:+ err)
      | Ok job =>
          match Entry job with
          | [] => Err ("no job found for sid " +:+ sid)
          | entry0 :: _ => Ok (Content entry0)
          end
      end
  end.

Definition DeleteSearchJob `{Platform} (c : Client) (sid : string) : option error :=
  let path := "/services/search/v2/jobs/" +:+ sid in
  match Delete c path {["output_mode" := "json"]} with
  | Err err => Some err
  | Ok _ => None
  end.

End splunkclient.

(** ** The ordered collector *)

Module Collector.

(** [type eventChunk struct { offset int; data string }] *)
Record eventChunk : Type := EventChunk { offset : Z; data : string }.

(** The local state of [eventChunkCollector]: the holding buffer, the bytes
    handed to the writer so far, and the two counters. *)
Record state : Type := State {
  chunkBuf : gmap Z eventChunk;
  written : string;
  nextOffset : Z;
  chunksWritten : Z
}.

Definition init : state :=
  {| chunkBuf := ∅; written := ""; nextOffset := 0; chunksWritten := 0 |}.

(** [writer.WriteString(c.data); nextOffset++; chunksWritten++] *)
Definition write (c : eventChunk) (buf : gmap Z eventChunk) (st : state) : state :=
  {| chunkBuf := buf;
     written := written st +:+ data c;
     nextOffset := int_wrap (nextOffset st + 1);
     chunksWritten := int_wrap (chunksWritten st + 1) |}.

(** The inner loop
    [for b, exists := chunkBuf[nextOffset]; exists; b, exists = chunkBuf[nextOffset]].
    Every iteration deletes a key, so [size chunkBuf] iterations are enough
    ([drain_exit] below); the fuel counts them. *)
Fixpoint drain (fuel : nat) (st : state) : state :=
  match fuel with
  | O => st
  | S fuel' =>
      match chunkBuf st !! nextOffset st with
      | Some bufferedChunk =>
          drain fuel' (write bufferedChunk (delete (nextOffset st) (chunkBuf st)) st)
      | None => st
      end
  end.

(** One iteration of [for chunk := range chunkChannel]. *)
Definition receive (st : state) (chunk : eventChunk) : state :=
  let st1 :=
    if decide (offset chunk = nextOffset st)
    then write chunk (chunkBuf st) st
    else {| chunkBuf := <[offset chunk := chunk]> (chunkBuf st);
            written := written st;
            nextOffset := nextOffset st;
            chunksWritten := chunksWritten st |} in
  drain (size (chunkBuf st1)) st1.

(** The whole loop over the chunks in the order the channel delivers them. *)
Definition collect (chunkChannel : list eventChunk) : state :=
  foldl receive init chunkChannel.

(** The payload of the chunk carrying offset [i] in a list of chunks. *)
Fixpoint payload_at (l : list eventChunk) (i : Z) : string :=
  match l with
  | [] => ""
  | c :: l' => if decide (offset c = i) then data c else payload_at l' i
  end.

(** The payloads of offsets [0 .. n-1], in ascending offset order. *)
Definition ascending (l : list eventChunk) (n : Z) : string :=
  concat_strings (payload_at l <$> seqZ 0 n).

End Collector.

(** ** internal/downloader *)

Module downloader.
Import splunkclient Collector.

Definition chunkSize : Z := 10000.

(** The capacity of [offsetChan] and of [chunkChan]: [make(chan _, 100)]. *)
Definition chanCap : Z := 100.

Record Downloader `{Platform} : Type := {
  client : Client;
  outputMode : string;
  maxConnections : Z;
  deleteWhenDone : bool;
  sid : string;
  filename : string
}.

(** The goroutines of [downloadJobChunks] run concurrently; what reaches the
    collector is decided by the order in which the workers' fetches complete.
    A [Scheduler] fixes that order: any rearrangement of the dispatched
    offsets. *)
Record Scheduler : Type := {
  arrival : list Z → list Z;
  arrival_perm : ∀ l, arrival l ≡ₚ l
}.

(** What a run has done to the outside: the chunk offsets requested from the
    server, the job ids sent a delete request, the contents of the output
    file ([None]: not created), and the error-level log. *)
Record effects : Type := Effects {
  fetches : list Z;
  deletes : list string;
  output : option string;
  log : list logEntry
}.

Definition no_effects : effects :=
  {| fetches := []; deletes := []; output := None; log := [] |}.

(** A call either returns its [error] ([None] is [nil]) or never returns
    because every goroutine is blocked on a channel. *)
Inductive outcome : Type :=
  | Returns (err : option error) (eff : effects)
  | Blocks.

(** [getEventChunk]: the chunk sent on [chunkChan], if any, and the log. *)
Definition getEventChunk `{Platform} (d : Downloader) (offset : Z)
    : option eventChunk * list logEntry :=
  match GetJobResults (client d) (sid d) chunkSize offset (outputMode d) with
  | (Err err, lg) =>
      (None, lg ++ [slog_Error "Error getting event chunk" err [("offset", pretty offset)]])
  | (Ok response, lg) => (Some {| offset := offset; data := response |}, lg)
  end.

(** [chunkWorker], for all workers together: every offset taken from
    [offsetChan] goes through [getEventChunk] once. *)
Definition chunkWorker `{Platform} (d : Downloader) (offsets : list Z)
    : list eventChunk * list logEntry :=
  let rs := getEventChunk d <$> offsets in
  (omap fst rs, concat (snd <$> rs)).

(** [eventChunkCollector]: the file contents and the log. *)
Definition eventChunkCollector `{Platform} (d : Downloader)
    (chunkChannel : list eventChunk) : option string * list logEntry :=
  match os_Create (filename d) with
  | Some err =>
      (None, [slog_Error "Error creating output file" err [("filename", filename d)]])
  | None => (Some (written (collect chunkChannel)), [])
  end.

Definition downloadJobChunks `{Platform} (d : Downloader) (sched : Scheduler)
    (totalChunks : Z) : outcome :=
  let offsets := seqZ 0 totalChunks in
  if decide (maxConnections d ≤ 0) then
    (* no worker: the offsets stay in [offsetChan], which holds [chanCap] *)
    if decide (totalChunks ≤ chanCap) then
      let '(file, lg) := eventChunkCollector d [] in
      Returns None {| fetches := []; deletes := []; output := file; log := lg |}
    else Blocks
  else
    let order := arrival sched offsets in
    let '(chunks, wlog) := chunkWorker d order in
    let '(file, clog) := eventChunkCollector d chunks in
    match os_Create (filename d) with
    | Some _ =>
        (* the collector has returned: [chunkChan] holds [chanCap] chunks
           and the next send never completes *)
        if decide (Z.of_nat (length chunks) ≤ chanCap) then
          Returns None {| fetches := order; deletes := []; output := file;
                          log := clog ++ wlog |}
        else Blocks
    | None =>
        Returns None {| fetches := order; deletes := []; output := file;
                        log := clog ++ wlog |}
    end.

Definition errNotComplete `{Platform} (d : Downloader) (jobStatus : SearchJobContent) : error :=
  "job " +:+ sid d +:+ " is not complete (state: " +:+ DispatchState jobStatus +:+
  ", progress: " +:+
  fmt_1f (float64_mul (DoneProgress jobStatus) (float64_of_int 100)) +:+ "%)".

Definition errJobFailed `{Platform} (d : Downloader) : error :=
  "job " +:+ sid d +:+ " has failed".

Definition errResultLimit `{Platform} (d : Downloader) : error :=
  "job " +:+ sid d +:+
  " has more than 500000 results. Split your search into multiple jobs.".

(** [totalChunks := (jobStatus.ResultCount / 10000) + 1]; Go's [/] truncates
    towards zero. *)
Definition totalChunks `{Platform} (jobStatus : SearchJobContent) : Z :=
  int_wrap (ResultCount jobStatus `quot` 10000 + 1).

Definition DownloadSearchResults `{Platform} (d : Downloader) (sched : Scheduler) : outcome :=
  match GetJobStatus (client d) (sid d) with
  | Err err => Returns (Some ("failed to get job status: " +:+ err)) no_effects
  | Ok jobStatus =>
      if negb (IsDone jobStatus) then
        Returns (Some (errNotComplete d jobStatus)) no_effects
      else if IsFailed jobStatus then
        Returns (Some (errJobFailed d)) no_effects
      else if decide (500000 < ResultCount jobStatus) then
        Returns (Some (errResultLimit d)) no_effects
      else
        match downloadJobChunks d sched (totalChunks jobStatus) with
        | Blocks => Blocks
        | Returns (Some err) eff =>
            Returns (Some ("failed to download job: " +:+ err)) eff
        | Returns None eff =>
            if deleteWhenDone d then
              let eff' := {| fetches := fetches eff; deletes := [sid d];
                             output := output eff; log := log eff |} in
              match DeleteSearchJob (client d) (sid d) with
              | Some err => Returns (Some ("failed to delete job: " +:+ err)) eff'
              | None => Returns None eff'
              end
            else Returns None eff
        end
  end.

End downloader.

(** ** Vocabulary of the statements *)

(** [t] occurs in [s]. *)
Definition contains (s t : string) : Prop := ∃ a b, s = a +:+ t +:+ b.

(** A line of text without its terminator. *)
Definition no_newline (s : string) : Prop := strings_IndexByte s newline = -1.

(** A page of tabular output as the server sends it: the header line, then
    the rows of that page. *)
Definition csv_page (header rows : string) : string :=
  header +:+ String newline rows.

(** The pages of a download decoded in tabular mode, page [i] at offset [i]. *)
Definition decode_csv (pages : list string) : list string :=
  imap (λ i page, splunkclient.parseCSVResponse page (Z.of_nat i)) pages.

(** The pages of a download as [parseResultsResponse] decodes them in an
    output mode, page [i] at offset [i]. *)
Definition decode_pages `{Platform} (outputMode : string) (pages : list string)
    : list string :=
  imap (λ i page, fst (splunkclient.parseResultsResponse page outputMode (Z.of_nat i)))
    pages.

(** The decoded payload of page [i], when its fetch succeeds. *)
Definition page `{Platform} (d : downloader.Downloader) (i : Z) : string :=
  from_option Collector.data "" (fst (downloader.getEventChunk d i)).

(** What the collector is handed: chunks whose offsets are page indices below
    [N], no index twice. (Each offset is dispatched once and taken by one
    worker; [N] is a Go [int].) *)
Record delivered (N : Z) (chunks : list Collector.eventChunk) : Prop := {
  delivered_int : N < 2 ^ 63;
  delivered_once : NoDup (Collector.offset <$> chunks);
  delivered_range : Forall (λ c, 0 ≤ Collector.offset c < N) chunks
}.

(** The collector's state after the chunks [received]: everything below
    [nextOffset] has arrived and has been written in ascending order, and
    every other chunk received waits in [chunkBuf] under its own offset. *)
Record ordered (received : list Collector.eventChunk) (st : Collector.state) : Prop := {
  ordered_nonneg : 0 ≤ Collector.nextOffset st;
  ordered_present :
    ∀ i, 0 ≤ i < Collector.nextOffset st → i ∈ Collector.offset <$> received;
  ordered_written :
    Collector.written st = Collector.ascending received (Collector.nextOffset st);
  ordered_buffered :
    ∀ k c, Collector.chunkBuf st !! k = Some c →
      Collector.nextOffset st ≤ k ∧ c ∈ received ∧ Collector.offset c = k;
  ordered_accounted :
    ∀ c, c ∈ received →
      Collector.offset c < Collector.nextOffset st ∨
      Collector.chunkBuf st !! Collector.offset c = Some c
}.

(** ** Worked instances

    A platform whose [float64] is a fixed-point number of thousandths, and a
    server described by its job status, its pages (keyed by the [offset]
    query parameter) and its answer to a delete request. *)

Module Examples.
Import splunkclient Collector downloader.

Definition platform (create_err : option error) : Platform := {|
  float64 := Z;
  float64_of_int z := z * 1000;
  float64_mul a b := (a * b) `quot` 1000;
  fmt_1f x := pretty (x `quot` 1000) +:+ "." +:+ pretty ((x `quot` 100) `mod` 10);
  JSONObject := string;
  json_Unmarshal_Results s := if decide (s = "{}") then Ok [] else Err "invalid character";
  json_Marshal o := Ok o;
  os_Create _ := create_err
|}.

Definition status `{Platform} (count : Z) (done failed : bool) (progress : float64)
    : SearchJobContent :=
  {| SID := "1756172871.1180"; ResultCount := count; IsDone := done;
     IsFailed := failed; DispatchState := if done then "DONE" else "RUNNING";
     DoneProgress := progress |}.

Definition server `{Platform} (st : SearchJobContent)
    (pages : list (string * result string)) (del : result string) : Client := {|
  Get path q :=
    match q !! "offset" with
    | Some off => default (Err "HTTP 404: 404 Not Found") (list_to_map (M := gmap string _) pages !! off)
    | None => Ok "status"
    end;
  Delete _ _ := del;
  json_Unmarshal_Status _ := Ok {| Entry := [{| Name := "job"; ID := "id"; Content := st |}] |}
|}.

Definition job `{Platform} (c : Client) (mode : string) (del : bool) : Downloader :=
  {| client := c; outputMode := mode; maxConnections := 8; deleteWhenDone := del;
     sid := "1756172871.1180"; filename := "out.txt" |}.

(** Fetches complete in dispatch order, or in the reverse of it. *)
Definition fifo : Scheduler := {| arrival l := l; arrival_perm l := reflexivity l |}.
Definition lifo : Scheduler :=
  {| arrival := reverse; arrival_perm := reverse_Permutation |}.

(** 25000 results in three pages; the server fails on the page at offset 1. *)
Definition gap_server (ce : option error) : @Client (platform ce) :=
  @server (platform ce) (@status (platform ce) 25000 true false 1000)
    [("0", Ok "p0;"); ("10000", Err "HTTP 500: 500 Internal Server Error");
     ("20000", Ok "p2;")] (Ok "{}").

(** The same job with every page served; [del] answers the delete request. *)
Definition full_server (ce : option error) (del : result string) : @Client (platform ce) :=
  @server (platform ce) (@status (platform ce) 25000 true false 1000)
    [("0", Ok "p0;"); ("10000", Ok "p1;"); ("20000", Ok "p2;")] del.

(** A job with [count] results, half done or done, and no page served. *)
Definition bare_server (ce : option error) (count : Z) (done failed : bool)
    : @Client (platform ce) :=
  @server (platform ce) (@status (platform ce) count done failed 500) [] (Ok "{}").

Definition denied : option error := Some "open out.txt: permission denied".

End Examples.

(** ** Further vocabulary *)

(** The first offset of a list whose fetch fails, [N] when none does. *)
Fixpoint first_failure `{Platform} (d : downloader.Downloader)
    (offsets : list Z) (N : Z) : Z :=
  match offsets with
  | [] => N
  | i :: rest =>
      match fst (downloader.getEventChunk d i) with
      | None => i
      | Some _ => first_failure d rest N
      end
  end.

(** The smallest page index below [N] that is never delivered. *)
Definition first_missing `{Platform} (d : downloader.Downloader) (N : Z) : Z :=
  first_failure d (seqZ 0 N) N.

(** The output modes [parseResultsResponse] has a case for. *)
Definition known_mode (outputMode : string) : Prop :=
  outputMode = "raw" ∨ outputMode = "csv" ∨ outputMode = "ndjson".

(** The rows of a decoded page that [json.Marshal] accepts, in order. *)
Definition marshalled `{Platform} (results : list JSONObject) : list string :=
  omap (λ r, match json_Marshal r with Ok line => Some line | Err _ => None end) results.

(** ** internal/splunkclient: creating a job and waiting for it *)

Module splunkjobs.
Import splunkclient.

(** [\s] of Go's [regexp]: tab, newline, form feed, carriage return, space. *)
Definition regexp_space (a : ascii) : bool :=
  bool_decide (a = "009"%char ∨ a = "010"%char ∨ a = "012"%char ∨
               a = "013"%char ∨ a = " "%char).

Fixpoint skip_spaces (s : string) : string :=
  match s with
  | "" => ""
  | String a s' => if regexp_space a then skip_spaces s' else s
  end.

(** [pattern.MatchString(s)] for the pattern [^\s*(\||search ).*]: the
    leading white space is followed by a pipe or by ["search "] (the final
    [.*] also matches the empty text). *)
Definition pattern_MatchString (s : string) : bool :=
  String.prefix "|" (skip_spaces s) || String.prefix "search " (skip_spaces s).

(** The search string after [if !pattern.MatchString(search) { ... }]. *)
Definition searchSent (search : string) : string :=
  if pattern_MatchString search then search else "search " +:+ search.

(** What [NewSearchJob] uses of the client and of the libraries: [c.Post],
    [url.Values.Encode] and [json.Unmarshal] into [NewSearchJob] (its [SID]). *)
Record JobsEndpoint : Type := {
  Post : string → string → gmap string string → string → result string;
  url_Encode : gmap string (list string) → string;
  json_Unmarshal_NewSearchJob : string → result string
}.

(** The form posted for a search. *)
Definition searchForm (search earliest latest : string) : gmap string (list string) :=
  <["search" := [search]]>
    (<["earliest_time" := [earliest]]>
       (<["latest_time" := [latest]]>
          (<["rf" := ["*"]]> {["timeout" := ["3600"]]}))).

Definition NewSearchJob (api : JobsEndpoint) (search earliest latest : string)
    : result string :=
  let search := searchSent search in
  let path := "/services/search/jobs" in
  let data := searchForm search earliest latest in
  match Post api path "application/x-www-form-urlencoded"
          {["output_mode" := "json"]} (url_Encode api data) with
  | Err err => Err err
  | Ok response =>
      match json_Unmarshal_NewSearchJob api response with
      | Err err => Err ("error unmarshalling job status: " +:+ err)
      | Ok sid => Ok sid
      end
  end.

(** [WaitUntilJobIsDone] polls at every tick of a 3-second ticker; [ticks]
    is the server as it answers at the successive ticks. [None]: none of
    these ticks ended the loop (the ticker never stops by itself). *)
Fixpoint WaitUntilJobIsDone `{Platform} (ticks : list Client) (sid : string)
    : option (option error) :=
  match ticks with
  | [] => None
  | c :: ticks' =>
      match GetJobStatus c sid with
      | Err err => Some (Some ("failed to get job status: " +:+ err))
      | Ok status =>
          if IsDone status then Some None else WaitUntilJobIsDone ticks' sid
      end
  end.

End splunkjobs.

(** ** internal/config and cmd/spldl *)

Module config.

Definition AuthHTTPBasic : string := "httpbasic".
Definition AuthToken : string := "token".

Record AuthConfig : Type := {
  Type_ : string;
  Username : string;
  Password : string;
  Token : string
}.

Record ClientConfig : Type := {
  Host : string;
  Port : Z;
  Auth : AuthConfig;
  UseTLS : bool;
  VerifyTLS : bool
}.

Record DownloaderConfig : Type := {
  OutputMode : string;
  MaxConnections : Z;
  DeleteWhenDone : bool;
  SID : string;
  Filename : string
}.

End config.

Module cli.
Import splunkclient splunkjobs downloader config.

Definition NewDownloader `{Platform} (client : Client) (config : DownloaderConfig)
    : Downloader :=
  {| downloader.client := client;
     outputMode := OutputMode config;
     maxConnections := MaxConnections config;
     deleteWhenDone := DeleteWhenDone config;
     sid := SID config;
     filename := Filename config |}.

(** [filepath.Ext] (with [/] as the path separator): the suffix of the last
    path element from its last dot on, empty when it has no dot. [ext_scan]
    walks the path from its end. *)
Fixpoint ext_scan (reversed acc : string) : string :=
  match reversed with
  | "" => ""
  | String a reversed' =>
      if decide (a = "."%char) then String "."%char acc
      else if decide (a = "/"%char) then ""
      else ext_scan reversed' (String a acc)
  end.
Definition filepath_Ext (path : string) : string := ext_scan (String.rev path) "".

(** The command line after [flag.Parse()]. *)
Record Flags : Type := {
  search : string;
  sid_flag : string;
  earliest : string;
  latest : string;
  token : string;
  username : string;
  password : string;
  host : string;
  port : Z;
  insecure : bool;
  deleteWhenDone_flag : bool;
  concurrency : Z;
  verbose : bool;
  help : bool
}.

Definition usage : string := "Usage: spldl [options] <output-file.[json|csv|txt]>".

(** [if *flag == "" { *flag = os.Getenv(name) }] *)
Definition or_env (getenv : string → string) (flag name : string) : string :=
  if decide (flag = "") then getenv name else flag.

(** [main] up to the creation of the client: either the process exits with
    what it printed with [fmt.Println], or the download is set up. *)
Inductive setup : Type :=
  | Stop (code : Z) (printed : list string)
  | Proceed (clientConfig : ClientConfig) (filename outputMode : string).

Definition main_setup (flags : Flags) (args : list string) (getenv : string → string)
    : setup :=
  match args with
  | [] => Stop 1 ["No output file specified"; usage]
  | filename :: _ =>
      if help flags then Stop 0 [usage]
      else
        let token := or_env getenv (token flags) "SPLUNK_TOKEN" in
        let username := or_env getenv (username flags) "SPLUNK_USERNAME" in
        let password := or_env getenv (password flags) "SPLUNK_PASSWORD" in
        if decide (search flags = "" ∧ sid_flag flags = "") then
          Stop 1 ["You must provide either a search query or a search ID. Use spldl --help for more information."]
        else
          let auth : option AuthConfig :=
            if decide (token ≠ "") then
              Some {| Type_ := AuthToken; Username := ""; Password := ""; Token := token |}
            else if decide (username ≠ "" ∧ password ≠ "") then
              Some {| Type_ := AuthHTTPBasic; Username := username;
                      Password := password; Token := "" |}
            else None in
          match auth with
          | None =>
              Stop 1 ["No authentication method provided. Use spldl --help for more information."]
          | Some auth =>
              let ext := filepath_Ext filename in
              let outputMode : option string :=
                if decide (ext = ".ndjson") then Some "ndjson"
                else if decide (ext = ".csv") then Some "csv"
                else if decide (ext = ".txt") then Some "raw"
                else None in
              match outputMode with
              | None => Stop 1 ["Output file must have .json, .csv, or .txt extension"]
              | Some outputMode =>
                  Proceed {| Host := host flags; Port := port flags; Auth := auth;
                             UseTLS := true; VerifyTLS := negb (insecure flags) |}
                          filename outputMode
              end
          end
  end.

(** The server behind the client that [NewClient] builds: its endpoint for
    new jobs, its answers at the ticks of [WaitUntilJobIsDone], and its
    answers during the download. *)
Record Session `{Platform} : Type := {
  jobs : JobsEndpoint;
  ticks : list Client;
  during_download : Client
}.

(** How the process ends: with an exit status, after what it printed, logged
    at error level and (if it got there) did as a download; or never. *)
Inductive ending : Type :=
  | Exits (code : Z) (printed : list string) (logged : list logEntry)
      (download : option effects)
  | Never.

Definition main `{Platform} (flags : Flags) (args : list string)
    (getenv : string → string) (connect : ClientConfig → Session)
    (sched : Scheduler) : ending :=
  match main_setup flags args getenv with
  | Stop code printed => Exits code printed [] None
  | Proceed clientConfig filename outputMode =>
      let session := connect clientConfig in
      let run (sid : string) : ending :=
        let downloaderConfig :=
          {| OutputMode := outputMode; DeleteWhenDone := deleteWhenDone_flag flags;
             MaxConnections := concurrency flags; SID := sid; Filename := filename |} in
        let downloader := NewDownloader (during_download session) downloaderConfig in
        match DownloadSearchResults downloader sched with
        | Blocks => Never
        | Returns (Some err) eff =>
            Exits 1 [] (log eff ++ [slog_Error "Failed to download search results" err []])
              (Some eff)
        | Returns None eff => Exits 0 [] (log eff) (Some eff)
        end in
      if decide (sid_flag flags = "") then
        match NewSearchJob (jobs session) (search flags) (earliest flags) (latest flags) with
        | Err err => Exits 1 [] [slog_Error "Failed to create search job" err []] None
        | Ok sid =>
            match WaitUntilJobIsDone (ticks session) sid with
            | None => Never
            | Some (Some err) =>
                Exits 1 [] [slog_Error "Failed while waiting for job to be done" err []] None
            | Some None => run sid
            end
        end
      else run (sid_flag flags)
  end.

End cli.

(** ** Further worked instances *)

Module MoreExamples.
Import splunkclient splunkjobs Collector downloader config cli.

(** A server that knows no job. *)
Definition empty_server : @Client (Examples.platform None) :=
  {| Get _ _ := Ok "{}"; Delete _ _ := Ok "{}";
     json_Unmarshal_Status _ := Ok (@Build_SplunkSearchResponse (Examples.platform None) []) |}.

(** The job of [Examples.job] with another worker count. *)
Definition job_with `{Platform} (c : Client) (mode : string) (workers : Z) : Downloader :=
  {| client := c; outputMode := mode; maxConnections := workers;
     deleteWhenDone := false; sid := "1756172871.1180"; filename := "out.txt" |}.

(** The bodies served by [Examples.full_server]. *)
Definition body (i : Z) : string :=
  if decide (i = 0) then "p0;" else if decide (i = 1) then "p1;" else "p2;".

(** A command line: an existing job, a token, an output file. *)
Definition flags_for (sid tok : string) (h : bool) : Flags :=
  {| search := ""; sid_flag := sid; earliest := "-24h"; latest := "now";
     token := tok; username := ""; password := ""; host := "splunk.example.com";
     port := 8089; insecure := false; deleteWhenDone_flag := false;
     concurrency := 8; verbose := false; help := h |}.

Definition no_env (name : string) : string := "".

(** An endpoint that answers every post with a job id. *)
Definition endpoint : JobsEndpoint :=
  {| Post _ _ _ _ := Ok "job"; url_Encode _ := "form";
     json_Unmarshal_NewSearchJob _ := Ok "1756172871.1180" |}.

Definition session (ce : option error) (_ : ClientConfig) : @Session (Examples.platform ce) :=
  {| jobs := endpoint;
     ticks := [Examples.bare_server ce 25000 false false;
               Examples.full_server ce (Ok "{}")];
     during_download := Examples.full_server ce (Ok "{}") |}.

(** A platform whose result rows are the words of the body and whose
    [json.Marshal] refuses the row ["NaN"]. *)
Definition rows_platform : Platform := {|
  float64 := Z;
  float64_of_int z := z;
  float64_mul := Z.mul;
  fmt_1f x := pretty x;
  JSONObject := string;
  json_Unmarshal_Results s := Ok (String.words s);
  json_Marshal o :=
    if decide (o = "NaN") then Err "json: unsupported value: NaN" else Ok o;
  os_Create _ := None
|}.

End MoreExamples.

(** * Properties *)

(** ** Integers and strings *)

Lemma int_wrap_id (z : Z) : - 2 ^ 63 ≤ z < 2 ^ 63 → int_wrap z = z.
Proof.
  intros Hz. unfold int_wrap.
  rewrite Z.mod_small by lia. lia.
Qed.

Lemma string_app_nil_l (s : string) : "" +:+ s = s.
Proof. reflexivity. Qed.

Lemma string_app_cons (a : ascii) (s t : string) :
  String a s +:+ t = String a (s +:+ t).
Proof. reflexivity. Qed.

Lemma string_app_nil_r (s : string) : s +:+ "" = s.
Proof.
  induction s as [|a s IH]; [done|].
  by rewrite string_app_cons, IH.
Qed.

Lemma string_app_assoc (s t u : string) : (s +:+ t) +:+ u = s +:+ t +:+ u.
Proof.
  induction s as [|a s IH]; [done|].
  by rewrite !string_app_cons, IH.
Qed.

Lemma concat_strings_app (l1 l2 : list string) :
  concat_strings (l1 ++ l2) = concat_strings l1 +:+ concat_strings l2.
Proof.
  induction l1 as [|s l1 IH]; simpl; [done|].
  by rewrite IH, string_app_assoc.
Qed.

Lemma concat_strings_snoc (l : list string) (s : string) :
  concat_strings (l ++ [s]) = concat_strings l +:+ s.
Proof.
  rewrite concat_strings_app. unfold concat_strings at 2. simpl.
  by rewrite string_app_nil_r.
Qed.

Lemma contains_intro (a t b : string) : contains (a +:+ t +:+ b) t.
Proof. by exists a, b. Qed.

(** ** The ordered collector *)

Module CollectorFacts.
Import Collector.

Lemma payload_at_app_l (l1 l2 : list eventChunk) (i : Z) :
  i ∈ offset <$> l1 → payload_at (l1 ++ l2) i = payload_at l1 i.
Proof.
  induction l1 as [|c l1 IH]; simpl.
  - by intros ?%elem_of_nil.
  - intros Hi. case_decide; [done|].
    apply IH. apply elem_of_cons in Hi as [->|Hi]; [congruence | done].
Qed.

Lemma payload_at_app_r (l1 l2 : list eventChunk) (i : Z) :
  i ∉ offset <$> l1 → payload_at (l1 ++ l2) i = payload_at l2 i.
Proof.
  induction l1 as [|c l1 IH]; simpl; [done|].
  intros Hi. apply not_elem_of_cons in Hi as [Hne Hi].
  case_decide; [congruence | by apply IH].
Qed.

Lemma payload_at_elem (l : list eventChunk) (c : eventChunk) :
  NoDup (offset <$> l) → c ∈ l → payload_at l (offset c) = data c.
Proof.
  induction l as [|c' l IH]; simpl.
  - by intros _ ?%elem_of_nil.
  - intros [Hnotin Hnd]%NoDup_cons [->|Hc]%elem_of_cons.
    + by rewrite decide_True.
    + rewrite decide_False; [by apply IH|].
      intros Heq. apply Hnotin. rewrite Heq. by apply list_elem_of_fmap_2.
Qed.

(** The payloads of the offsets below [n] do not change when chunks with
    other offsets are appended. *)
Lemma ascending_app (l1 l2 : list eventChunk) (n : Z) :
  (∀ i, 0 ≤ i < n → i ∈ offset <$> l1) →
  ascending (l1 ++ l2) n = ascending l1 n.
Proof.
  intros Hall. unfold ascending. f_equal.
  apply list_fmap_ext. intros k i Hi.
  apply lookup_seqZ in Hi as [-> Hlt].
  apply payload_at_app_l, Hall. lia.
Qed.

Lemma ascending_succ (l : list eventChunk) (n : Z) :
  0 ≤ n → ascending l (n + 1) = ascending l n +:+ payload_at l n.
Proof.
  intros Hn. unfold ascending.
  rewrite seqZ_app by lia. rewrite fmap_app, concat_strings_app.
  rewrite (seqZ_cons _ 1) by lia. rewrite (seqZ_nil _ (Z.pred 1)) by lia.
  rewrite Z.add_0_l. unfold concat_strings at 2. simpl.
  by rewrite string_app_nil_r.
Qed.

(** The inner loop leaves with [chunkBuf[nextOffset]] absent: the fuel
    [size chunkBuf] never runs out first. *)
Lemma drain_exit (fuel : nat) (st : state) :
  (size (chunkBuf st) ≤ fuel)%nat →
  chunkBuf (drain fuel st) !! nextOffset (drain fuel st) = None.
Proof.
  revert st. induction fuel as [|fuel IH]; intros st Hsz; simpl.
  - assert (chunkBuf st = ∅) as -> by (apply map_size_empty_inv; lia).
    apply lookup_empty.
  - destruct (chunkBuf st !! nextOffset st) as [c|] eqn:Hc; [|done].
    apply IH. simpl.
    rewrite map_size_delete, Hc. 
    assert (size (chunkBuf st) ≠ 0%nat).
    { intros H0%map_size_empty_inv. rewrite H0 in Hc. by rewrite lookup_empty in Hc. }
    lia.
Qed.

End CollectorFacts.

Module CollectorOrder.
Import Collector CollectorFacts.

Lemma delivered_app_l (N : Z) (l1 l2 : list eventChunk) :
  delivered N (l1 ++ l2) → delivered N l1.
Proof.
  intros [Hint Hnd Hrg]. split; [done| |].
  - rewrite fmap_app in Hnd. by apply NoDup_app in Hnd as (? & _ & _).
  - by apply Forall_app in Hrg as [? _].
Qed.

Lemma delivered_snoc_fresh (N : Z) (l : list eventChunk) (c : eventChunk) :
  delivered N (l ++ [c]) → offset c ∉ offset <$> l.
Proof.
  intros [_ Hnd _]. rewrite fmap_app in Hnd.
  apply NoDup_app in Hnd as (_ & Hdisj & _).
  intros Hin. apply (Hdisj _ Hin). simpl. apply list_elem_of_singleton. done.
Qed.

Lemma delivered_lt (N : Z) (l : list eventChunk) (c : eventChunk) :
  delivered N l → c ∈ l → 0 ≤ offset c < N.
Proof. intros [_ _ Hrg] Hc. by apply (proj1 (Forall_forall _ _) Hrg). Qed.

(** One iteration of the inner loop keeps the state ordered. *)
Lemma drain_ordered (N : Z) (received : list eventChunk) (fuel : nat) (st : state) :
  delivered N received → ordered received st → ordered received (drain fuel st).
Proof.
  intros Hdel. revert st. induction fuel as [|fuel IH]; intros st Hord; [done|].
  simpl. destruct (chunkBuf st !! nextOffset st) as [c|] eqn:Hc; [|done].
  apply IH. destruct Hord as [Hnn Hpres Hwr Hbuf Hacc].
  destruct (Hbuf _ _ Hc) as (_ & Hcin & Hoff).
  pose proof (delivered_lt _ _ _ Hdel Hcin) as Hlt.
  pose proof (delivered_int _ _ Hdel) as HN.
  assert (int_wrap (nextOffset st + 1) = nextOffset st + 1) as Hw
    by (apply int_wrap_id; lia).
  split; simpl; rewrite ?Hw.
  - lia.
  - intros i Hi. destruct (decide (i = nextOffset st)) as [->|Hne].
    + rewrite <- Hoff. by apply list_elem_of_fmap_2.
    + apply Hpres. lia.
  - rewrite ascending_succ by done. rewrite Hwr. f_equal.
    rewrite <- Hoff. symmetry. apply payload_at_elem; [apply Hdel | done].
  - intros k c' Hk. apply lookup_delete_Some in Hk as [Hne Hk].
    destruct (Hbuf _ _ Hk) as (? & ? & ?). repeat split; [lia | done | done].
  - intros c' Hc'. destruct (Hacc _ Hc') as [?|Hin]; [left; lia|].
    destruct (decide (offset c' = nextOffset st)) as [Heq|Hne]; [left; lia|].
    right. by rewrite lookup_delete_ne.
Qed.

(** One received chunk: the outer loop body keeps the state ordered and
    leaves with [chunkBuf[nextOffset]] absent. *)
Lemma receive_ordered (N : Z) (received : list eventChunk) (st : state) (chunk : eventChunk) :
  delivered N (received ++ [chunk]) →
  ordered received st → chunkBuf st !! nextOffset st = None →
  ordered (received ++ [chunk]) (receive st chunk) ∧
  chunkBuf (receive st chunk) !! nextOffset (receive st chunk) = None.
Proof.
  intros Hdel Hord Hnone. unfold receive.
  split; [|by apply drain_exit].
  apply (drain_ordered N); [done|].
  pose proof (delivered_snoc_fresh _ _ _ Hdel) as Hfresh.
  assert (chunk ∈ received ++ [chunk]) as Hin by (apply elem_of_app; right; by apply list_elem_of_singleton).
  pose proof (delivered_lt _ _ _ Hdel Hin) as Hlt.
  pose proof (delivered_int _ _ Hdel) as HN.
  destruct Hord as [Hnn Hpres Hwr Hbuf Hacc].
  assert (∀ i, 0 ≤ i < nextOffset st → i ∈ offset <$> (received ++ [chunk])) as Hpres'.
  { intros i Hi. rewrite fmap_app. apply elem_of_app. left. by apply Hpres. }
  case_decide as Hoff.
  - assert (int_wrap (nextOffset st + 1) = nextOffset st + 1) as Hw
      by (apply int_wrap_id; lia).
    split; simpl; rewrite ?Hw.
    + lia.
    + intros i Hi. destruct (decide (i = nextOffset st)) as [->|Hne].
      * rewrite <- Hoff. by apply list_elem_of_fmap_2.
      * apply Hpres'. lia.
    + rewrite ascending_succ by done. rewrite ascending_app by done.
      rewrite Hwr. f_equal. rewrite <- Hoff. symmetry.
      apply payload_at_elem; [apply Hdel | done].
    + intros k c Hk. destruct (Hbuf _ _ Hk) as (? & ? & ?).
      assert (k ≠ nextOffset st) by (intros ->; congruence).
      repeat split; [lia | | done]. apply elem_of_app. by left.
    + intros c [Hc | ->%list_elem_of_singleton]%elem_of_app; [|left; lia].
      destruct (Hacc _ Hc) as [?|?]; [left; lia | by right].
  - assert (nextOffset st < offset chunk) as Hahead.
    { destruct (decide (offset chunk < nextOffset st)) as [Hbelow|?]; [|lia].
      exfalso. apply Hfresh, Hpres. lia. }
    split; simpl.
    + done.
    + done.
    + by rewrite ascending_app.
    + intros k c Hk. apply lookup_insert_Some in Hk as [[<- <-] | [Hne Hk]].
      * repeat split; [lia | done].
      * destruct (Hbuf _ _ Hk) as (? & ? & ?).
        repeat split; [done | | done]. apply elem_of_app. by left.
    + intros c [Hc | ->%list_elem_of_singleton]%elem_of_app.
      * destruct (Hacc _ Hc) as [?|Hk]; [by left | right].
        rewrite lookup_insert_ne; [done|].
        intros Heq. apply Hfresh. rewrite Heq. by apply list_elem_of_fmap_2.
      * right. by rewrite lookup_insert_eq.
Qed.

Lemma collect_snoc (l : list eventChunk) (c : eventChunk) :
  collect (l ++ [c]) = receive (collect l) c.
Proof. unfold collect. by rewrite foldl_app. Qed.

(** The loop invariant of [eventChunkCollector]. *)
Lemma collect_ordered (N : Z) (received : list eventChunk) :
  delivered N received →
  ordered received (collect received) ∧
  chunkBuf (collect received) !! nextOffset (collect received) = None.
Proof.
  induction received as [|chunk received IH] using rev_ind; intros Hdel.
  - split; [|done]. split; simpl.
    + done.
    + intros i Hi. lia.
    + done.
    + intros k c Hk. by rewrite lookup_empty in Hk.
    + by intros c ?%elem_of_nil.
  - rewrite collect_snoc.
    destruct (IH (delivered_app_l _ _ _ Hdel)) as [Hord Hnone].
    by apply (receive_ordered N).
Qed.

(** Where the collector stops: at the smallest index that never arrived. *)
Lemma collect_stops_at_gap (N k : Z) (received : list eventChunk) :
  delivered N received → 0 ≤ k →
  (∀ i, 0 ≤ i < k → i ∈ offset <$> received) →
  k ∉ offset <$> received →
  nextOffset (collect received) = k.
Proof.
  intros Hdel Hk Hbelow Hgap.
  destruct (collect_ordered N received Hdel) as [[Hnn Hpres Hwr Hbuf Hacc] Hnone].
  destruct (Z.lt_trichotomy (nextOffset (collect received)) k) as [Hlt | [Heq | Hgt]];
    [exfalso | done | exfalso].
  - assert (nextOffset (collect received) ∈ offset <$> received) as Hin
      by (apply Hbelow; lia).
    apply list_elem_of_fmap in Hin as (c & Hoff & Hc).
    destruct (Hacc _ Hc) as [?|Hin]; [lia|].
    rewrite <- Hoff in Hin. congruence.
  - apply Hgap, Hpres. lia.
Qed.

End CollectorOrder.

Module CollectorSpec.
Import Collector CollectorFacts CollectorOrder.

Lemma delivered_of_permutation (N : Z) (chunks : list eventChunk) :
  N < 2 ^ 63 → offset <$> chunks ≡ₚ seqZ 0 N → delivered N chunks.
Proof.
  intros HN Hperm. split; [done | |].
  - rewrite Hperm. apply NoDup_seqZ.
  - apply Forall_forall. intros c Hc.
    assert (offset c ∈ seqZ 0 N) as Hin
      by (rewrite <- Hperm; by apply list_elem_of_fmap_2).
    apply elem_of_seqZ in Hin. lia.
Qed.

(** The loop of [eventChunkCollector] on a complete delivery. *)
Lemma collect_writes_ascending (N : Z) (chunks : list eventChunk) :
  1 ≤ N < 2 ^ 63 →
  offset <$> chunks ≡ₚ seqZ 0 N →
  written (collect chunks) = concat_strings (payload_at chunks <$> seqZ 0 N) ∧
  nextOffset (collect chunks) = N.
Proof.
  intros HN Hperm.
  assert (delivered N chunks) as Hdel by (apply delivered_of_permutation; [lia | done]).
  assert (nextOffset (collect chunks) = N) as Hnext.
  { apply (collect_stops_at_gap N); [done | lia | |].
    - intros i Hi. rewrite Hperm. apply elem_of_seqZ. lia.
    - rewrite Hperm. intros Hin%elem_of_seqZ. lia. }
  split; [|done].
  destruct (collect_ordered N chunks Hdel) as [Hord _].
  rewrite (ordered_written _ _ Hord), Hnext. done.
Qed.

(** C1. For every page count [N >= 1] and every list of [N] chunks that
    carries the offsets [0 .. N-1], each exactly once, in whatever order they
    arrive, [eventChunkCollector] (its output file created) writes to the
    output exactly the chunks' payloads in ascending offset order, logs
    nothing, and ends with [nextOffset = N]. The right-hand side does not
    depend on the arrival order. *)
Theorem collector_writes_ascending `{Platform}
    (d : downloader.Downloader) (N : Z) (chunks : list eventChunk) :
  1 ≤ N < 2 ^ 63 →
  offset <$> chunks ≡ₚ seqZ 0 N →
  os_Create (downloader.filename d) = None →
  downloader.eventChunkCollector d chunks =
    (Some (concat_strings (payload_at chunks <$> seqZ 0 N)), []) ∧
  nextOffset (collect chunks) = N.
Proof.
  intros HN Hperm Hcreate.
  destruct (collect_writes_ascending N chunks HN Hperm) as [Hwritten Hnext].
  split; [|done].
  unfold downloader.eventChunkCollector. by rewrite Hcreate, Hwritten.
Qed.

Lemma collector_writes_ascending_witness :
  @downloader.eventChunkCollector (Examples.platform None)
    (Examples.job (Examples.full_server None (Ok "{}")) "raw" false)
    [EventChunk 2 "c"; EventChunk 0 "a"; EventChunk 1 "b"] = (Some "abc", []).
Proof.
  refine (proj1 (@collector_writes_ascending (Examples.platform None)
    (Examples.job (Examples.full_server None (Ok "{}")) "raw" false) 3
    [EventChunk 2 "c"; EventChunk 0 "a"; EventChunk 1 "b"] _ _ _)).
  - lia.
  - apply (bool_decide_unpack _). vm_compute. exact I.
  - reflexivity.
Defined.

(** C8. Invariant of [eventChunkCollector]: when every offset in [0, N) is
    delivered at most once, then after each received chunk has been processed
    (the buffer drained), the bytes written are the payloads of the offsets
    [0 .. nextOffset-1] in order, and every key of [chunkBuf] is strictly
    greater than [nextOffset]. *)
Theorem collector_invariant (N : Z) (received rest : list eventChunk) :
  delivered N (received ++ rest) →
  written (collect received) =
    concat_strings (payload_at (received ++ rest) <$> seqZ 0 (nextOffset (collect received))) ∧
  ∀ k, is_Some (chunkBuf (collect received) !! k) → nextOffset (collect received) < k.
Proof.
  intros Hdel.
  destruct (collect_ordered N received (delivered_app_l _ _ _ Hdel))
    as [[Hnn Hpres Hwr Hbuf Hacc] Hnone].
  split.
  - fold (ascending (received ++ rest) (nextOffset (collect received))).
    by rewrite ascending_app.
  - intros k [c Hk]. destruct (Hbuf _ _ Hk) as (Hle & _ & _).
    destruct (decide (k = nextOffset (collect received))) as [->|Hne]; [congruence | lia].
Qed.

Lemma collector_invariant_witness :
  written (collect [EventChunk 3 "d"; EventChunk 0 "a"]) = "a" ∧
  ∀ k, is_Some (chunkBuf (collect [EventChunk 3 "d"; EventChunk 0 "a"]) !! k) → 1 < k.
Proof.
  refine (collector_invariant 4 [EventChunk 3 "d"; EventChunk 0 "a"] [EventChunk 1 "b"] _).
  split.
  - lia.
  - apply (bool_decide_unpack _). vm_compute. exact I.
  - apply (bool_decide_unpack _). vm_compute. exact I.
Defined.

End CollectorSpec.

(** ** The page decoders *)

Module DecoderSpec.
Import splunkclient.

Lemma IndexByte_range (s : string) (c : ascii) :
  -1 ≤ strings_IndexByte s c.
Proof.
  induction s as [|a s IH]; simpl; [lia|].
  repeat case_decide; lia.
Qed.

Lemma IndexByte_header (header rest : string) :
  no_newline header →
  strings_IndexByte (header +:+ String newline rest) newline =
    Z.of_nat (String.length header).
Proof.
  unfold no_newline. induction header as [|a header IH]; intros Hno.
  - rewrite string_app_nil_l. cbn [strings_IndexByte]. by rewrite decide_True.
  - rewrite string_app_cons. cbn [strings_IndexByte] in *.
    destruct (decide (a = newline)) as [|Hne]; [done|].
    destruct (decide (strings_IndexByte header newline = -1)) as [Hh|Hh].
    + rewrite (IH Hh). rewrite decide_False by lia.
      cbn [String.length]. lia.
    + pose proof (IndexByte_range header newline). lia.
Qed.

Lemma string_drop_header (header rest : string) :
  string_drop (S (String.length header)) (header +:+ String newline rest) = rest.
Proof.
  induction header as [|a header IH]; [done|].
  rewrite string_app_cons. simpl. apply IH.
Qed.

Lemma parseCSVResponse_first (response : string) (offset : Z) :
  offset ≤ 0 → parseCSVResponse response offset = response.
Proof. intros Hle. unfold parseCSVResponse. by rewrite decide_False by lia. Qed.

Lemma parseCSVResponse_later (header rows : string) (offset : Z) :
  0 < offset → no_newline header →
  parseCSVResponse (csv_page header rows) offset = rows.
Proof.
  intros Hpos Hno. unfold parseCSVResponse, csv_page.
  rewrite decide_True by done.
  rewrite (IndexByte_header _ _ Hno).
  rewrite decide_True by lia. unfold slice_from.
  replace (Z.to_nat (Z.of_nat (String.length header) + 1))
    with (S (String.length header)) by lia.
  apply string_drop_header.
Qed.

(** A payload without any newline has no header line to cut: it is passed on
    as it is, at every offset. *)
Lemma parseCSVResponse_no_newline (response : string) (offset : Z) :
  no_newline response → parseCSVResponse response offset = response.
Proof.
  unfold no_newline, parseCSVResponse. intros ->.
  case_decide; [|done]. rewrite decide_False; [done|]. by intros Hneq.
Qed.

(** The cut of [parseCSVResponse] over the pages of a download. *)
Lemma decode_csv_pages (header rows0 : string) (rows : list string) :
  no_newline header →
  concat_strings (decode_csv (csv_page header <$> rows0 :: rows)) =
    csv_page header (concat_strings (rows0 :: rows)).
Proof.
  intros Hno. unfold decode_csv. rewrite fmap_cons, imap_cons.
  rewrite parseCSVResponse_first by done.
  assert (imap ((λ (i : nat) (page : string), parseCSVResponse page (Z.of_nat i)) ∘ S)
            (csv_page header <$> rows) = rows) as ->.
  { rewrite imap_fmap.
    rewrite <- (list_fmap_id rows) at 2. rewrite <- (imap_const id rows).
    apply imap_ext. intros i r _. simpl.
    apply parseCSVResponse_later; [lia | done]. }
  change (csv_page header rows0 +:+ concat_strings rows =
          csv_page header (rows0 +:+ concat_strings rows)).
  unfold csv_page. by rewrite string_app_assoc, string_app_cons.
Qed.

Lemma parseResultsResponse_csv `{Platform} (response : string) (offset : Z) :
  parseResultsResponse response "csv" offset = (parseCSVResponse response offset, []).
Proof.
  unfold parseResultsResponse. rewrite decide_False by done. by rewrite decide_True.
Qed.

(** C7. In tabular (csv) output mode, [GetJobResults] passes the payload of
    page 0 through unchanged and, for every page index greater than 0,
    strips the header row (the first line, up to and including the first
    newline). The pages decoded in csv mode, each at its own index, and
    concatenated in ascending index order are therefore the header once,
    followed by all the rows, byte for byte. *)
Theorem csv_header_kept_once `{Platform} (c : Client) (sid : string) (count : Z)
    (header rows0 : string) (rows : list string) :
  no_newline header →
  (∀ response,
     Get c (resultsPath sid) (resultsQuery count 0 "csv") = Ok response →
     GetJobResults c sid count 0 "csv" = (Ok response, [])) ∧
  (∀ offset rs, 0 < offset →
     Get c (resultsPath sid) (resultsQuery count offset "csv") = Ok (csv_page header rs) →
     GetJobResults c sid count offset "csv" = (Ok rs, [])) ∧
  concat_strings (decode_pages "csv" (csv_page header <$> rows0 :: rows)) =
    csv_page header (concat_strings (rows0 :: rows)).
Proof.
  intros Hno. split; [|split].
  - intros response Hget. unfold GetJobResults.
    rewrite Hget, parseResultsResponse_csv. by rewrite parseCSVResponse_first.
  - intros offset rs Hpos Hget. unfold GetJobResults.
    rewrite Hget, parseResultsResponse_csv. by rewrite parseCSVResponse_later.
  - rewrite <- (decode_csv_pages header rows0 rows Hno).
    unfold decode_pages, decode_csv. apply (f_equal concat_strings).
    apply imap_ext. intros i page _. by rewrite parseResultsResponse_csv.
Qed.

Lemma csv_header_kept_once_witness :
  @GetJobResults (Examples.platform None)
    (@Examples.server (Examples.platform None)
       (@Examples.status (Examples.platform None) 15000 true false 1000)
       [("0", Ok (csv_page "a,b" "1,2;")); ("10000", Ok (csv_page "a,b" "3,4;"))]
       (Ok "{}"))
    "1756172871.1180" 10000 1 "csv" = (Ok "3,4;", []) ∧
  concat_strings
    (@decode_pages (Examples.platform None) "csv"
       (csv_page "a,b" <$> ["1,2;"; "3,4;"; "5,6;"])) =
    csv_page "a,b" "1,2;3,4;5,6;".
Proof.
  split.
  - refine (proj1 (proj2 (@csv_header_kept_once (Examples.platform None)
      (@Examples.server (Examples.platform None)
         (@Examples.status (Examples.platform None) 15000 true false 1000)
         [("0", Ok (csv_page "a,b" "1,2;")); ("10000", Ok (csv_page "a,b" "3,4;"))]
         (Ok "{}"))
      "1756172871.1180" 10000 "a,b" "1,2;" ["3,4;"; "5,6;"] _)) 1 "3,4;" _ _).
    + reflexivity.
    + lia.
    + reflexivity.
  - refine (proj2 (proj2 (@csv_header_kept_once (Examples.platform None)
      (@Examples.server (Examples.platform None)
         (@Examples.status (Examples.platform None) 15000 true false 1000)
         [("0", Ok (csv_page "a,b" "1,2;")); ("10000", Ok (csv_page "a,b" "3,4;"))]
         (Ok "{}"))
      "1756172871.1180" 10000 "a,b" "1,2;" ["3,4;"; "5,6;"] _))).
    reflexivity.
Defined.

(** C10. In ndjson mode, when the body of a page does not unmarshal as JSON,
    [GetJobResults] returns the empty string and a nil error (the failure
    only reaches the log): [getEventChunk] then delivers a chunk of zero
    bytes for that offset and nothing is propagated to the caller. *)
Theorem ndjson_malformed_page_is_empty `{Platform}
    (c : Client) (sid response : string) (err : error) (count offset : Z) :
  Get c (resultsPath sid) (resultsQuery count offset "ndjson") = Ok response →
  json_Unmarshal_Results response = Err err →
  GetJobResults c sid count offset "ndjson" =
    (Ok "", [slog_Error "Error unmarshalling JSON" err []]).
Proof.
  intros Hget Hjson. unfold GetJobResults. rewrite Hget.
  unfold parseResultsResponse.
  rewrite decide_False by done. rewrite decide_False by done.
  rewrite decide_True by done.
  unfold parseJSONResponse. by rewrite Hjson.
Qed.

Lemma ndjson_malformed_page_is_empty_witness :
  @GetJobResults (Examples.platform None)
    (@Examples.server (Examples.platform None)
       (@Examples.status (Examples.platform None) 5 true false 1000)
       [("0", Ok "<html>Bad Gateway</html>")] (Ok "{}"))
    "1756172871.1180" 10000 0 "ndjson" =
  (Ok "", [slog_Error "Error unmarshalling JSON" "invalid character" []]).
Proof.
  refine (@ndjson_malformed_page_is_empty (Examples.platform None)
    (@Examples.server (Examples.platform None)
       (@Examples.status (Examples.platform None) 5 true false 1000)
       [("0", Ok "<html>Bad Gateway</html>")] (Ok "{}"))
    "1756172871.1180" "<html>Bad Gateway</html>" "invalid character" 10000 0 _ _).
  - reflexivity.
  - reflexivity.
Defined.

(** The chunk delivered for such a page has no bytes. *)
Lemma malformed_page_chunk_is_empty `{Platform}
    (d : downloader.Downloader) (response : string) (err : error) (offset : Z) :
  downloader.outputMode d = "ndjson" →
  Get (downloader.client d) (resultsPath (downloader.sid d))
    (resultsQuery downloader.chunkSize offset "ndjson") = Ok response →
  json_Unmarshal_Results response = Err err →
  fst (downloader.getEventChunk d offset) =
    Some {| Collector.offset := offset; Collector.data := "" |}.
Proof.
  intros Hmode Hget Hjson. unfold downloader.getEventChunk. rewrite Hmode.
  unfold GetJobResults. rewrite Hget. unfold parseResultsResponse.
  rewrite decide_False by done. rewrite decide_False by done.
  rewrite decide_True by done. unfold parseJSONResponse. by rewrite Hjson.
Qed.

End DecoderSpec.

(** ** The download engine *)

Module DownloaderFacts.
Import splunkclient Collector CollectorFacts CollectorOrder downloader.

Section Engine.
Context `{Platform}.
Implicit Types (d : Downloader) (sched : Scheduler) (js : SearchJobContent).

(** A chunk carries the offset it was requested for. *)
Lemma getEventChunk_offset d (o : Z) (c : eventChunk) :
  fst (getEventChunk d o) = Some c → offset c = o.
Proof.
  unfold getEventChunk.
  destruct (GetJobResults _ _ _ _ _) as [[response|err] lg]; simpl; [|done].
  by intros [= <-].
Qed.

(** A failed fetch leaves an error-level log entry naming the offset. *)
Lemma getEventChunk_failure d (o : Z) :
  fst (getEventChunk d o) = None →
  ∃ err, slog_Error "Error getting event chunk" err [("offset", pretty o)]
           ∈ snd (getEventChunk d o).
Proof.
  unfold getEventChunk.
  destruct (GetJobResults _ _ _ _ _) as [[response|err] lg]; simpl; [done|].
  intros _. exists err. apply elem_of_app. right. by apply list_elem_of_singleton.
Qed.

Lemma chunkWorker_elem d (l : list Z) (c : eventChunk) :
  c ∈ fst (chunkWorker d l) ↔ offset c ∈ l ∧ fst (getEventChunk d (offset c)) = Some c.
Proof.
  unfold chunkWorker. simpl. rewrite list_elem_of_omap. split.
  - intros (r & Hr & Hc). apply list_elem_of_fmap in Hr as (o & -> & Ho).
    pose proof (getEventChunk_offset _ _ _ Hc) as ->. done.
  - intros [Ho Hc]. exists (getEventChunk d (offset c)).
    split; [by apply list_elem_of_fmap_2 | done].
Qed.

Lemma chunkWorker_offsets d (l : list Z) (o : Z) :
  o ∈ offset <$> fst (chunkWorker d l) ↔ o ∈ l ∧ is_Some (fst (getEventChunk d o)).
Proof.
  rewrite list_elem_of_fmap. split.
  - intros (c & -> & Hc). apply chunkWorker_elem in Hc as [? Hc]. by rewrite Hc.
  - intros [Ho [c Hc]]. exists c.
    pose proof (getEventChunk_offset _ _ _ Hc) as Hoff.
    split; [done|]. apply chunkWorker_elem. by rewrite Hoff.
Qed.

Lemma chunkWorker_NoDup d (l : list Z) :
  NoDup l → NoDup (offset <$> fst (chunkWorker d l)).
Proof.
  induction l as [|o l IH]; intros Hnd.
  - apply NoDup_nil_2.
  - apply NoDup_cons in Hnd as [Hnotin Hnd].
    change (fst (chunkWorker d (o :: l)))
      with (match fst (getEventChunk d o) with
            | Some c => c :: fst (chunkWorker d l)
            | None => fst (chunkWorker d l)
            end).
    destruct (fst (getEventChunk d o)) as [c|] eqn:Hc; [|by apply IH].
    rewrite fmap_cons. apply NoDup_cons. split; [|by apply IH].
    rewrite (getEventChunk_offset _ _ _ Hc).
    intros Hin%chunkWorker_offsets. by destruct Hin.
Qed.

Lemma chunkWorker_length d (l : list Z) :
  (length (fst (chunkWorker d l)) ≤ length l)%nat.
Proof.
  induction l as [|o l IH]; [done|].
  change (fst (chunkWorker d (o :: l)))
    with (match fst (getEventChunk d o) with
          | Some c => c :: fst (chunkWorker d l)
          | None => fst (chunkWorker d l)
          end).
  destruct (fst (getEventChunk d o)); cbn [length]; lia.
Qed.

Lemma chunkWorker_log d (l : list Z) (o : Z) (e : logEntry) :
  o ∈ l → e ∈ snd (getEventChunk d o) → e ∈ snd (chunkWorker d l).
Proof.
  intros Ho He. unfold chunkWorker. simpl.
  apply list_elem_of_In, in_concat. exists (snd (getEventChunk d o)).
  split; apply list_elem_of_In; [|done].
  rewrite <- list_fmap_compose. by apply (list_elem_of_fmap_2 (snd ∘ getEventChunk d)).
Qed.

(** What arrives on [chunkChan] when the offsets [0 .. N-1] are dispatched. *)
Lemma chunkWorker_delivered d sched (N : Z) :
  N < 2 ^ 63 → delivered N (fst (chunkWorker d (arrival sched (seqZ 0 N)))).
Proof.
  intros HN. split; [done | |].
  - apply chunkWorker_NoDup. rewrite arrival_perm. apply NoDup_seqZ.
  - apply Forall_forall. intros c [Hin _]%chunkWorker_elem.
    rewrite arrival_perm in Hin. apply elem_of_seqZ in Hin. lia.
Qed.

(** The engine with at least one worker, spelled out. *)
Lemma downloadJobChunks_workers d sched (N : Z) :
  0 < maxConnections d → N ≤ chanCap →
  downloadJobChunks d sched N =
    let order := arrival sched (seqZ 0 N) in
    let work := chunkWorker d order in
    let coll := eventChunkCollector d (fst work) in
    Returns None {| fetches := order; deletes := []; output := fst coll;
                    log := snd coll ++ snd work |}.
Proof.
  intros Hw HN. unfold downloadJobChunks.
  rewrite decide_False by lia.
  pose proof (chunkWorker_length d (arrival sched (seqZ 0 N))) as Hlen.
  rewrite (Permutation_length (arrival_perm sched _)), length_seqZ in Hlen.
  destruct (chunkWorker d (arrival sched (seqZ 0 N))) as [chunks wlog].
  simpl in *.
  destruct (eventChunkCollector d chunks) as [file clog]. simpl.
  destruct (os_Create (filename d)); [|done].
  rewrite decide_True; [done|]. unfold chanCap in *. lia.
Qed.

(** With the output file in place the collector always receives, and the
    engine returns whatever the number of chunks. *)
Lemma downloadJobChunks_created d sched (N : Z) :
  0 < maxConnections d → os_Create (filename d) = None →
  downloadJobChunks d sched N =
    let order := arrival sched (seqZ 0 N) in
    let work := chunkWorker d order in
    Returns None {| fetches := order; deletes := [];
                    output := Some (written (collect (fst work)));
                    log := snd work |}.
Proof.
  intros Hw Hcreate. unfold downloadJobChunks, eventChunkCollector.
  rewrite decide_False by lia. rewrite Hcreate.
  by destruct (chunkWorker d (arrival sched (seqZ 0 N))) as [chunks wlog].
Qed.

(** Past the readiness gate, [DownloadSearchResults] is the engine followed
    by the optional delete request. *)
Lemma DownloadSearchResults_ready d sched js :
  GetJobStatus (client d) (sid d) = Ok js →
  IsDone js = true → IsFailed js = false → ResultCount js ≤ 500000 →
  DownloadSearchResults d sched =
    match downloadJobChunks d sched (totalChunks js) with
    | Blocks => Blocks
    | Returns (Some err) eff => Returns (Some ("failed to download job: " +:+ err)) eff
    | Returns None eff =>
        if deleteWhenDone d then
          let eff' := {| fetches := fetches eff; deletes := [sid d];
                         output := output eff; log := log eff |} in
          match DeleteSearchJob (client d) (sid d) with
          | Some err => Returns (Some ("failed to delete job: " +:+ err)) eff'
          | None => Returns None eff'
          end
        else Returns None eff
    end.
Proof.
  intros Hst Hdone Hfailed Hcount. unfold DownloadSearchResults.
  rewrite Hst, Hdone, Hfailed. simpl. by rewrite decide_False by lia.
Qed.

Lemma totalChunks_floor js :
  0 ≤ ResultCount js ≤ 500000 →
  totalChunks js = ResultCount js `div` chunkSize + 1.
Proof.
  intros Hc. unfold totalChunks, chunkSize.
  rewrite Z.quot_div_nonneg by lia.
  assert (0 ≤ ResultCount js `div` 10000 ≤ 50) as Hq.
  { split; [apply Z.div_pos; lia|]. apply Z.div_le_upper_bound; lia. }
  apply int_wrap_id. lia.
Qed.

(** The gate keeps the page count within the channels' capacity. *)
Lemma totalChunks_fits js :
  - 2 ^ 63 ≤ ResultCount js ≤ 500000 → totalChunks js ≤ 51.
Proof.
  intros Hc. unfold totalChunks.
  assert (- 2 ^ 63 ≤ ResultCount js `quot` 10000 ≤ 50) as Hq.
  { split.
    - transitivity ((- 2 ^ 63) `quot` 10000); [by vm_compute|].
      apply Z.quot_le_mono; lia.
    - apply Z.quot_le_upper_bound; lia. }
  rewrite int_wrap_id; lia.
Qed.

End Engine.
End DownloaderFacts.

Module DownloadSpec.
Import splunkclient Collector CollectorFacts CollectorOrder downloader DownloaderFacts.

Lemma string_app_head (a b : ascii) (s t u v : string) :
  String a s +:+ u = String b t +:+ v → a = b.
Proof. rewrite !string_app_cons. by intros [= -> _]. Qed.

Ltac split_string a b :=
  exists a, b; rewrite ?string_app_assoc; reflexivity.

(** *** The readiness gate *)

(** C6. When [is-done] is false the download fails with the not-complete
    error, whose message includes the dispatch state and the done-progress
    as a percentage; when [is-done] and [is-failed] are both true it fails
    with the job-failed error. In both cases nothing has been fetched,
    deleted or written. *)
Theorem gate_rejects_unfinished_and_failed `{Platform}
    (d : Downloader) (sched : Scheduler) (js : SearchJobContent) :
  GetJobStatus (client d) (sid d) = Ok js →
  (IsDone js = false →
     DownloadSearchResults d sched = Returns (Some (errNotComplete d js)) no_effects ∧
     contains (errNotComplete d js) (DispatchState js) ∧
     contains (errNotComplete d js)
       (fmt_1f (float64_mul (DoneProgress js) (float64_of_int 100)) +:+ "%")) ∧
  (IsDone js = true → IsFailed js = true →
     DownloadSearchResults d sched = Returns (Some (errJobFailed d)) no_effects).
Proof.
  intros Hst. split.
  - intros Hdone. split; [|split].
    + unfold DownloadSearchResults. by rewrite Hst, Hdone.
    + unfold errNotComplete.
      split_string ("job " +:+ sid d +:+ " is not complete (state: ")
        (", progress: " +:+
         fmt_1f (float64_mul (DoneProgress js) (float64_of_int 100)) +:+ "%)").
    + unfold errNotComplete.
      split_string ("job " +:+ sid d +:+ " is not complete (state: " +:+
                    DispatchState js +:+ ", progress: ") ")".
  - intros Hdone Hfailed. unfold DownloadSearchResults.
    by rewrite Hst, Hdone, Hfailed.
Qed.

Lemma gate_rejects_unfinished_and_failed_witness :
  @DownloadSearchResults (Examples.platform None)
    (Examples.job (Examples.bare_server None 600000 false false) "csv" false)
    Examples.fifo =
  Returns
    (Some "job 1756172871.1180 is not complete (state: RUNNING, progress: 50.0%)")
    no_effects.
Proof.
  refine (proj1 (proj1 (@gate_rejects_unfinished_and_failed (Examples.platform None)
    (Examples.job (Examples.bare_server None 600000 false false) "csv" false)
    Examples.fifo (@Examples.status (Examples.platform None) 600000 false false 500) _) _)).
  - reflexivity.
  - reflexivity.
Defined.

(** The claim C4 as it is written: for every status snapshot, the download
    fails with the result-limit error exactly when the count exceeds 500000.
    It fails for a job that is not done: the not-complete check comes
    first. *)
Lemma result_limit_claim_fails :
  ¬ (∀ (P : Platform) (d : Downloader) (sched : Scheduler) (js : SearchJobContent),
       GetJobStatus (client d) (sid d) = Ok js →
       (DownloadSearchResults d sched = Returns (Some (errResultLimit d)) no_effects
        ↔ 500000 < ResultCount js)).
Proof.
  intros Hclaim.
  pose proof (proj2 (Hclaim (Examples.platform None)
    (Examples.job (Examples.bare_server None 600000 false false) "csv" false)
    Examples.fifo (@Examples.status (Examples.platform None) 600000 false false 500) eq_refl)) as Hlimit.
  assert (500000 < 600000) as Hover by lia.
  specialize (Hlimit Hover). vm_compute in Hlimit. congruence.
Qed.

(** C4, amended. For every status snapshot of a job that is done and has not
    failed, the download fails with the result-limit error exactly when the
    count exceeds 500000 (a count of exactly 500000 passes); the message
    states the ceiling and tells the caller to split the search, and on that
    failure nothing has been fetched. *)
Theorem result_limit_gate `{Platform}
    (d : Downloader) (sched : Scheduler) (js : SearchJobContent) :
  GetJobStatus (client d) (sid d) = Ok js →
  IsDone js = true → IsFailed js = false →
  (DownloadSearchResults d sched = Returns (Some (errResultLimit d)) no_effects
   ↔ 500000 < ResultCount js) ∧
  contains (errResultLimit d) "500000" ∧
  contains (errResultLimit d) "Split your search into multiple jobs".
Proof.
  intros Hst Hdone Hfailed. split; [split|split].
  - intros Hrun. destruct (decide (500000 < ResultCount js)) as [|Hle]; [done|].
    exfalso. rewrite (DownloadSearchResults_ready d sched js) in Hrun by (done || lia).
    destruct (downloadJobChunks d sched (totalChunks js)) as [[e|] eff|]; [| |done].
    + assert ("failed to download job: " +:+ e = errResultLimit d) as Hmsg by congruence.
      by apply string_app_head in Hmsg.
    + destruct (deleteWhenDone d); [|done].
      destruct (DeleteSearchJob (client d) (sid d)) as [e|]; [|done].
      assert ("failed to delete job: " +:+ e = errResultLimit d) as Hmsg by congruence.
      by apply string_app_head in Hmsg.
  - intros Hover. unfold DownloadSearchResults.
    rewrite Hst, Hdone, Hfailed. simpl. by rewrite decide_True.
  - unfold errResultLimit.
    split_string ("job " +:+ sid d +:+ " has more than ")
      " results. Split your search into multiple jobs.".
  - unfold errResultLimit.
    split_string ("job " +:+ sid d +:+ " has more than 500000 results. ") ".".
Qed.

Lemma result_limit_gate_witness :
  @DownloadSearchResults (Examples.platform None)
    (Examples.job (Examples.bare_server None 500001 true false) "csv" false)
    Examples.fifo =
  Returns
    (Some "job 1756172871.1180 has more than 500000 results. Split your search into multiple jobs.")
    no_effects.
Proof.
  refine (proj2 (proj1 (@result_limit_gate (Examples.platform None)
    (Examples.job (Examples.bare_server None 500001 true false) "csv" false)
    Examples.fifo (@Examples.status (Examples.platform None) 500001 true false 500) _ _ _)) _).
  - reflexivity.
  - reflexivity.
  - reflexivity.
  - simpl. lia.
Defined.

(** *** The page plan *)

(** C5. For every job status with a non-negative result count that passes
    the readiness gate, the number of pages planned is
    [floor(count / 10000) + 1], which is at least 1 (also for a count of 0 or
    an exact multiple of the page size): exactly the offsets
    [0 .. floor(count / 10000)] are fetched, each once. *)
Theorem page_plan `{Platform}
    (d : Downloader) (sched : Scheduler) (js : SearchJobContent) :
  GetJobStatus (client d) (sid d) = Ok js →
  IsDone js = true → IsFailed js = false →
  0 ≤ ResultCount js ≤ 500000 →
  0 < maxConnections d →
  totalChunks js = ResultCount js `div` 10000 + 1 ∧
  1 ≤ totalChunks js ∧
  ∃ err eff,
    DownloadSearchResults d sched = Returns err eff ∧
    fetches eff ≡ₚ seqZ 0 (ResultCount js `div` 10000 + 1) ∧
    length (fetches eff) = Z.to_nat (ResultCount js `div` 10000 + 1).
Proof.
  intros Hst Hdone Hfailed Hcount Hworkers.
  pose proof (totalChunks_floor js Hcount) as Htotal. unfold chunkSize in Htotal.
  assert (0 ≤ ResultCount js `div` 10000) as Hq by (apply Z.div_pos; lia).
  pose proof (totalChunks_fits js) as Hfits.
  split; [done|]. split; [lia|].
  rewrite (DownloadSearchResults_ready d sched js) by (done || lia).
  rewrite downloadJobChunks_workers by (done || unfold chanCap; lia).
  cbv zeta. rewrite Htotal.
  set (order := arrival sched (seqZ 0 (ResultCount js `div` 10000 + 1))).
  assert (order ≡ₚ seqZ 0 (ResultCount js `div` 10000 + 1)) as Hperm
    by apply arrival_perm.
  assert (length order = Z.to_nat (ResultCount js `div` 10000 + 1)) as Hlen
    by (by rewrite Hperm, length_seqZ).
  destruct (deleteWhenDone d); [|by eexists _, _].
  destruct (DeleteSearchJob (client d) (sid d)); by eexists _, _.
Qed.

Lemma page_plan_witness :
  @totalChunks (Examples.platform None)
    (@Examples.status (Examples.platform None) 20000 true false 500) = 3.
Proof.
  refine (proj1 (@page_plan (Examples.platform None)
    (Examples.job (Examples.bare_server None 20000 true false) "raw" false)
    Examples.lifo (@Examples.status (Examples.platform None) 20000 true false 500)
    _ _ _ _ _)).
  - reflexivity.
  - reflexivity.
  - reflexivity.
  - simpl. lia.
  - simpl. lia.
Defined.

(** *** Pages that are never delivered *)

(** The claim C2 as it is written: when the fetch of a planned page fails,
    the download ends with an error. On the server of [gap_server] page 1
    fails and the download returns nil, with a file that stops before it. *)
Lemma missing_page_claim_fails :
  ¬ (∀ (P : Platform) (d : Downloader) (sched : Scheduler) (js : SearchJobContent) (k : Z),
       GetJobStatus (client d) (sid d) = Ok js →
       IsDone js = true → IsFailed js = false → ResultCount js ≤ 500000 →
       0 ≤ k < totalChunks js →
       fst (getEventChunk d k) = None →
       ∃ err eff, DownloadSearchResults d sched = Returns (Some err) eff).
Proof.
  intros Hclaim.
  destruct (Hclaim (Examples.platform None)
    (Examples.job (Examples.gap_server None) "raw" false) Examples.lifo
    (@Examples.status (Examples.platform None) 25000 true false 1000) 1)
    as (err & eff & Hrun).
  - reflexivity.
  - reflexivity.
  - reflexivity.
  - simpl. lia.
  - by vm_compute.
  - reflexivity.
  - vm_compute in Hrun. congruence.
Qed.

(** C2, amended. When the fetch of page [k] fails and the pages before it are
    fetched, [downloadJobChunks] still returns nil: the failure is only
    logged at error level, with the offset, and the output file holds exactly
    the payloads of the pages [0 .. k-1] in ascending order. Nothing after
    the missing page is written. *)
Theorem missing_page_truncates_output `{Platform}
    (d : Downloader) (sched : Scheduler) (N k : Z) :
  0 < maxConnections d →
  os_Create (filename d) = None →
  0 ≤ k < N → N < 2 ^ 63 →
  fst (getEventChunk d k) = None →
  (∀ i, 0 ≤ i < k → is_Some (fst (getEventChunk d i))) →
  ∃ eff err,
    downloadJobChunks d sched N = Returns None eff ∧
    output eff = Some (concat_strings (page d <$> seqZ 0 k)) ∧
    slog_Error "Error getting event chunk" err [("offset", pretty k)] ∈ log eff.
Proof.
  intros Hworkers Hcreate Hk HN Hfail Hbelow.
  rewrite downloadJobChunks_created by done. cbv zeta.
  set (order := arrival sched (seqZ 0 N)).
  assert (∀ i, 0 ≤ i < N → i ∈ order) as Hdispatched.
  { intros i Hi. unfold order. rewrite arrival_perm. apply elem_of_seqZ. lia. }
  destruct (getEventChunk_failure d k Hfail) as [err Herr].
  eexists _, err. split; [done|]. split.
  - cbn [output]. f_equal.
    pose proof (chunkWorker_delivered d sched N HN) as Hdel. fold order in Hdel.
    destruct (collect_ordered N _ Hdel) as [Hord _].
    rewrite (ordered_written _ _ Hord).
    rewrite (collect_stops_at_gap N k); [|done|lia| |].
    + unfold ascending. f_equal. apply list_fmap_ext. intros n i Hi.
      apply lookup_seqZ in Hi as [-> Hlt].
      destruct (Hbelow (0 + Z.of_nat n)) as [c Hc]; [lia|].
      unfold page. rewrite Hc. simpl.
      rewrite <- (getEventChunk_offset _ _ _ Hc) at 1.
      apply payload_at_elem; [apply Hdel|].
      apply chunkWorker_elem.
      rewrite (getEventChunk_offset _ _ _ Hc). split; [apply Hdispatched; lia | done].
    + intros i Hi. apply chunkWorker_offsets. split; [apply Hdispatched; lia|].
      apply Hbelow. lia.
    + intros [_ Hsome]%chunkWorker_offsets. rewrite Hfail in Hsome.
      by destruct Hsome.
  - cbn [log]. apply (chunkWorker_log d order k); [apply Hdispatched; lia | done].
Qed.

Lemma missing_page_truncates_output_witness :
  ∃ eff err,
    @downloadJobChunks (Examples.platform None)
      (Examples.job (Examples.gap_server None) "raw" false) Examples.lifo 3
      = Returns None eff ∧
    output eff = Some "p0;" ∧
    slog_Error "Error getting event chunk" err [("offset", "1")] ∈ log eff.
Proof.
  refine (@missing_page_truncates_output (Examples.platform None)
    (Examples.job (Examples.gap_server None) "raw" false) Examples.lifo 3 1
    _ _ _ _ _ _).
  - simpl. lia.
  - reflexivity.
  - lia.
  - lia.
  - reflexivity.
  - intros i Hi. assert (i = 0) as -> by lia. by eexists.
Defined.

(** *** Deleting the job *)

(** The claim C3 as it is written: with delete-on-completion configured and
    the pages downloaded, a failing delete request leaves the download
    successful. On [full_server] with a failing delete the download returns
    an error. *)
Lemma delete_failure_claim_fails :
  ¬ (∀ (P : Platform) (d : Downloader) (sched : Scheduler) (js : SearchJobContent)
       (eff : effects) (err : error),
       GetJobStatus (client d) (sid d) = Ok js →
       IsDone js = true → IsFailed js = false → ResultCount js ≤ 500000 →
       deleteWhenDone d = true →
       downloadJobChunks d sched (totalChunks js) = Returns None eff →
       DeleteSearchJob (client d) (sid d) = Some err →
       ∃ eff', DownloadSearchResults d sched = Returns None eff').
Proof.
  intros Hclaim.
  destruct (Hclaim (Examples.platform None)
    (Examples.job (Examples.full_server None (Err "HTTP 500: 500 Internal Server Error"))
       "raw" true)
    Examples.lifo
    (@Examples.status (Examples.platform None) 25000 true false 1000)
    {| fetches := [2; 1; 0]; deletes := []; output := Some "p0;p1;p2;"; log := [] |}
    "HTTP 500: 500 Internal Server Error")
    as (eff' & Hrun).
  - reflexivity.
  - reflexivity.
  - reflexivity.
  - simpl. lia.
  - reflexivity.
  - by vm_compute.
  - reflexivity.
  - vm_compute in Hrun. congruence.
Qed.

(** C3, amended. With delete-on-completion configured and the pages
    downloaded, a failing delete request makes [DownloadSearchResults] return
    the error ["failed to delete job: ..."]: the download is reported as
    failed, although the output file is complete and stays as written. *)
Theorem delete_failure_fails_download `{Platform}
    (d : Downloader) (sched : Scheduler) (js : SearchJobContent)
    (eff : effects) (err : error) :
  GetJobStatus (client d) (sid d) = Ok js →
  IsDone js = true → IsFailed js = false → ResultCount js ≤ 500000 →
  deleteWhenDone d = true →
  downloadJobChunks d sched (totalChunks js) = Returns None eff →
  DeleteSearchJob (client d) (sid d) = Some err →
  DownloadSearchResults d sched =
    Returns (Some ("failed to delete job: " +:+ err))
      {| fetches := fetches eff; deletes := [sid d];
         output := output eff; log := log eff |}.
Proof.
  intros Hst Hdone Hfailed Hcount Hdel Hrun Herr.
  rewrite (DownloadSearchResults_ready d sched js) by done.
  by rewrite Hrun, Hdel, Herr.
Qed.

Lemma delete_failure_fails_download_witness :
  @DownloadSearchResults (Examples.platform None)
    (Examples.job (Examples.full_server None (Err "HTTP 500: 500 Internal Server Error"))
       "raw" true)
    Examples.lifo =
  Returns (Some "failed to delete job: HTTP 500: 500 Internal Server Error")
    {| fetches := [2; 1; 0]; deletes := ["1756172871.1180"];
       output := Some "p0;p1;p2;"; log := [] |}.
Proof.
  refine (@delete_failure_fails_download (Examples.platform None)
    (Examples.job (Examples.full_server None (Err "HTTP 500: 500 Internal Server Error"))
       "raw" true)
    Examples.lifo
    (@Examples.status (Examples.platform None) 25000 true false 1000)
    {| fetches := [2; 1; 0]; deletes := []; output := Some "p0;p1;p2;"; log := [] |}
    "HTTP 500: 500 Internal Server Error" _ _ _ _ _ _ _).
  - reflexivity.
  - reflexivity.
  - reflexivity.
  - simpl. lia.
  - reflexivity.
  - by vm_compute.
  - reflexivity.
Defined.

(** *** The output file cannot be created *)

(** C9. When [os.Create] fails, [eventChunkCollector] logs the error and
    returns without writing; [downloadJobChunks] still returns nil (the
    chunks fit in [chunkChan]), and so does [DownloadSearchResults] for a job
    that passes the gate and whose delete request, if any, succeeds: the
    download is reported as successful although no file was produced. *)
Theorem create_failure_reported_as_success `{Platform}
    (d : Downloader) (sched : Scheduler) (js : SearchJobContent) (err : error) :
  os_Create (filename d) = Some err →
  (∀ chunks, eventChunkCollector d chunks =
     (None, [slog_Error "Error creating output file" err [("filename", filename d)]])) ∧
  (∀ N, N ≤ chanCap →
     ∃ eff, downloadJobChunks d sched N = Returns None eff ∧ output eff = None ∧
            slog_Error "Error creating output file" err [("filename", filename d)]
              ∈ log eff) ∧
  (GetJobStatus (client d) (sid d) = Ok js →
   IsDone js = true → IsFailed js = false →
   - 2 ^ 63 ≤ ResultCount js ≤ 500000 →
   deleteWhenDone d = false ∨ DeleteSearchJob (client d) (sid d) = None →
   ∃ eff, DownloadSearchResults d sched = Returns None eff ∧ output eff = None).
Proof.
  intros Hcreate.
  assert (∀ chunks, eventChunkCollector d chunks =
     (None, [slog_Error "Error creating output file" err [("filename", filename d)]]))
    as Hcoll.
  { intros chunks. unfold eventChunkCollector. by rewrite Hcreate. }
  assert (∀ N, N ≤ chanCap →
     ∃ eff, downloadJobChunks d sched N = Returns None eff ∧ output eff = None ∧
            slog_Error "Error creating output file" err [("filename", filename d)]
              ∈ log eff) as Hengine.
  { intros N HN. destruct (decide (maxConnections d ≤ 0)) as [Hnone|Hsome].
    - unfold downloadJobChunks. rewrite decide_True by done.
      rewrite decide_True by done. rewrite Hcoll.
      eexists. split; [done|]. split; [done|]. cbn [log].
      by apply list_elem_of_singleton.
    - rewrite downloadJobChunks_workers by (done || lia). cbv zeta.
      rewrite Hcoll. eexists. split; [done|]. split; [done|]. cbn [log snd].
      apply elem_of_app. left. by apply list_elem_of_singleton. }
  split; [done|]. split; [done|].
  intros Hst Hdone Hfailed Hcount Hdelete.
  rewrite (DownloadSearchResults_ready d sched js) by (done || lia).
  destruct (Hengine (totalChunks js)) as (eff & -> & Hout & _).
  { pose proof (totalChunks_fits js Hcount). unfold chanCap. lia. }
  destruct Hdelete as [-> | Hdelete].
  - by exists eff.
  - rewrite Hdelete. destruct (deleteWhenDone d); by eexists.
Qed.

Lemma create_failure_reported_as_success_witness :
  ∃ eff,
    @DownloadSearchResults (Examples.platform Examples.denied)
      (Examples.job (Examples.full_server Examples.denied (Ok "{}")) "raw" true)
      Examples.fifo = Returns None eff ∧
    output eff = None.
Proof.
  refine (proj2 (proj2 (@create_failure_reported_as_success
    (Examples.platform Examples.denied)
    (Examples.job (Examples.full_server Examples.denied (Ok "{}")) "raw" true)
    Examples.fifo
    (@Examples.status (Examples.platform Examples.denied) 25000 true false 1000)
    "open out.txt: permission denied" _)) _ _ _ _ _).
  - reflexivity.
  - reflexivity.
  - reflexivity.
  - reflexivity.
  - simpl. lia.
  - right. reflexivity.
Defined.

End DownloadSpec.

(** ** More on the download engine *)

Module EngineSpec.
Import splunkclient Collector CollectorFacts CollectorOrder downloader DownloaderFacts.

Section Engine.
Context `{Platform}.
Implicit Types (d : Downloader) (sched : Scheduler).

Lemma first_failure_spec d (n : nat) (m : Z) :
  let k := first_failure d (seqZ m (Z.of_nat n)) (m + Z.of_nat n) in
  m ≤ k ≤ m + Z.of_nat n ∧
  (∀ i, m ≤ i < k → is_Some (fst (getEventChunk d i))) ∧
  (k < m + Z.of_nat n → fst (getEventChunk d k) = None).
Proof.
  revert m. induction n as [|n IH]; intros m.
  - rewrite seqZ_nil by lia. cbn [first_failure].
    split; [lia|]. split; [intros i Hi; lia | lia].
  - rewrite seqZ_cons by lia. cbn [first_failure].
    destruct (fst (getEventChunk d m)) as [c|] eqn:Hm.
    + replace (Z.pred (Z.of_nat (S n))) with (Z.of_nat n) by lia.
      replace (m + Z.of_nat (S n)) with (Z.succ m + Z.of_nat n) by lia.
      destruct (IH (Z.succ m)) as (Hrange & Hbelow & Hfail).
      split; [lia|]. split; [|done].
      intros i Hi. destruct (decide (i = m)) as [->|Hne]; [by rewrite Hm|].
      apply Hbelow. lia.
    + split; [lia|]. split; [intros i Hi; lia | done].
Qed.

Lemma first_missing_spec d (N : Z) :
  0 ≤ N →
  0 ≤ first_missing d N ≤ N ∧
  (∀ i, 0 ≤ i < first_missing d N → is_Some (fst (getEventChunk d i))) ∧
  (first_missing d N < N → fst (getEventChunk d (first_missing d N)) = None).
Proof.
  intros HN. unfold first_missing.
  pose proof (first_failure_spec d (Z.to_nat N) 0) as Hspec.
  rewrite Z2Nat.id, Z.add_0_l in Hspec by done. exact Hspec.
Qed.

(** What the collector has written once the workers are through, in terms
    of the first page that failed. *)
Lemma workers_written d sched (N k : Z) :
  N < 2 ^ 63 → 0 ≤ k ≤ N →
  (∀ i, 0 ≤ i < k → is_Some (fst (getEventChunk d i))) →
  (k < N → fst (getEventChunk d k) = None) →
  written (collect (fst (chunkWorker d (arrival sched (seqZ 0 N))))) =
    concat_strings (page d <$> seqZ 0 k).
Proof.
  intros HN Hk Hbelow Hfail.
  set (order := arrival sched (seqZ 0 N)).
  assert (∀ i, i ∈ order ↔ 0 ≤ i < N) as Hdispatched.
  { intros i. unfold order. rewrite arrival_perm, elem_of_seqZ. lia. }
  pose proof (chunkWorker_delivered d sched N HN) as Hdel. fold order in Hdel.
  destruct (collect_ordered N _ Hdel) as [Hord _].
  rewrite (ordered_written _ _ Hord).
  rewrite (collect_stops_at_gap N k); [|done|lia| |].
  - unfold ascending. f_equal. apply list_fmap_ext. intros n i Hi.
    apply lookup_seqZ in Hi as [-> Hlt].
    destruct (Hbelow (0 + Z.of_nat n)) as [c Hc]; [lia|].
    unfold page. rewrite Hc. simpl.
    rewrite <- (getEventChunk_offset _ _ _ Hc) at 1.
    apply payload_at_elem; [apply Hdel|].
    apply chunkWorker_elem.
    rewrite (getEventChunk_offset _ _ _ Hc). split; [apply Hdispatched; lia | done].
  - intros i Hi. apply chunkWorker_offsets. split; [apply Hdispatched; lia|].
    apply Hbelow. lia.
  - intros [Hin Hsome]%chunkWorker_offsets. apply Hdispatched in Hin.
    rewrite Hfail in Hsome by lia. by destruct Hsome.
Qed.

(** X1. Whatever the order in which the fetches complete, the output file
    holds exactly the pages before the first page whose fetch fails (all [N]
    pages when none fails): the file does not depend on the schedule. *)
Theorem output_is_schedule_free d sched (N : Z) :
  0 < maxConnections d →
  os_Create (filename d) = None →
  0 ≤ N < 2 ^ 63 →
  ∃ eff,
    downloadJobChunks d sched N = Returns None eff ∧
    output eff = Some (concat_strings (page d <$> seqZ 0 (first_missing d N))).
Proof.
  intros Hworkers Hcreate HN.
  rewrite downloadJobChunks_created by done. cbv zeta.
  eexists. split; [done|]. cbn [output]. f_equal.
  destruct (first_missing_spec d N) as (Hrange & Hbelow & Hfail); [lia|].
  by apply workers_written; [lia|..].
Qed.

End Engine.

Lemma output_is_schedule_free_witness :
  ∃ eff,
    @downloadJobChunks (Examples.platform None)
      (Examples.job (Examples.gap_server None) "raw" false) Examples.lifo 3
      = Returns None eff ∧
    output eff = Some "p0;".
Proof.
  refine (@output_is_schedule_free (Examples.platform None)
    (Examples.job (Examples.gap_server None) "raw" false) Examples.lifo 3 _ _ _).
  - simpl. lia.
  - reflexivity.
  - lia.
Defined.

End EngineSpec.

(** ** More on the collector *)

Module CollectorMore.
Import Collector CollectorFacts CollectorOrder.

Lemma drain_appends (fuel : nat) (st : state) :
  ∃ s, written (drain fuel st) = written st +:+ s.
Proof.
  revert st. induction fuel as [|fuel IH]; intros st; simpl.
  - exists "". by rewrite string_app_nil_r.
  - destruct (chunkBuf st !! nextOffset st) as [c|].
    + destruct (IH (write c (delete (nextOffset st) (chunkBuf st)) st)) as [s Hs].
      exists (data c +:+ s). rewrite Hs. simpl. by rewrite string_app_assoc.
    + exists "". by rewrite string_app_nil_r.
Qed.

Lemma receive_appends (st : state) (chunk : eventChunk) :
  ∃ s, written (receive st chunk) = written st +:+ s.
Proof.
  unfold receive. case_decide.
  - destruct (drain_appends (size (chunkBuf st)) (write chunk (chunkBuf st) st))
      as [s Hs].
    exists (data chunk +:+ s). simpl in Hs. simpl. rewrite Hs.
    by rewrite string_app_assoc.
  - match goal with |- ∃ s, written (drain ?f ?st1) = _ =>
      destruct (drain_appends f st1) as [s Hs] end.
    by exists s.
Qed.

Lemma foldl_receive_appends (st : state) (chunks : list eventChunk) :
  ∃ s, written (foldl receive st chunks) = written st +:+ s.
Proof.
  revert st. induction chunks as [|c chunks IH]; intros st; simpl.
  - exists "". by rewrite string_app_nil_r.
  - destruct (IH (receive st c)) as [s Hs].
    destruct (receive_appends st c) as [s' Hs'].
    exists (s' +:+ s). by rewrite Hs, Hs', string_app_assoc.
Qed.

(** X2. The collector only ever appends: whatever chunks arrive later
    (duplicates and out-of-range offsets included), the bytes written after
    them extend the bytes written before. *)
Theorem collector_is_append_only (received later : list eventChunk) :
  ∃ s, written (collect (received ++ later)) = written (collect received) +:+ s.
Proof. unfold collect. rewrite foldl_app. apply foldl_receive_appends. Qed.

Lemma drain_counts (fuel : nat) (st : state) :
  chunksWritten st = nextOffset st →
  chunksWritten (drain fuel st) = nextOffset (drain fuel st).
Proof.
  revert st. induction fuel as [|fuel IH]; intros st Heq; simpl; [done|].
  destruct (chunkBuf st !! nextOffset st) as [c|]; [|done].
  apply IH. simpl. by rewrite Heq.
Qed.

Lemma collect_counts (chunks : list eventChunk) :
  chunksWritten (collect chunks) = nextOffset (collect chunks).
Proof.
  induction chunks as [|c chunks IH] using rev_ind; [done|].
  rewrite collect_snoc. unfold receive. apply drain_counts.
  case_decide; simpl; by rewrite ?IH.
Qed.

(** X3. In the holding buffer are exactly the chunks received so far whose
    offset lies beyond [nextOffset], each under its own offset: a chunk behind
    a page that never arrives stays there and is never written. *)
Theorem buffer_holds_the_pages_ahead (N : Z) (received : list eventChunk)
    (k : Z) (c : eventChunk) :
  delivered N received →
  chunkBuf (collect received) !! k = Some c ↔
    c ∈ received ∧ offset c = k ∧ nextOffset (collect received) < k.
Proof.
  intros Hdel.
  destruct (collect_ordered N received Hdel) as [[Hnn Hpres Hwr Hbuf Hacc] Hnone].
  split.
  - intros Hk. destruct (Hbuf _ _ Hk) as (Hle & Hin & Hoff).
    repeat split; [done | done |].
    destruct (decide (k = nextOffset (collect received))) as [->|]; [congruence | lia].
  - intros (Hin & <- & Hlt). destruct (Hacc _ Hin) as [?|?]; [lia | done].
Qed.

Lemma buffer_holds_the_pages_ahead_witness :
  chunkBuf (collect [EventChunk 2 "c"; EventChunk 0 "a"]) !! 2 = Some (EventChunk 2 "c").
Proof.
  refine (proj2 (buffer_holds_the_pages_ahead 3
    [EventChunk 2 "c"; EventChunk 0 "a"] 2 (EventChunk 2 "c") _) _).
  - split.
    + lia.
    + apply (bool_decide_unpack _). vm_compute. exact I.
    + apply (bool_decide_unpack _). vm_compute. exact I.
  - split; [|split].
    + apply list_elem_of_here.
    + reflexivity.
    + vm_compute. reflexivity.
Defined.

(** X4. After a complete delivery (offsets [0 .. N-1], each once, in any
    order) nothing is left in the holding buffer and the collector has counted
    [N] chunks written. *)
Theorem complete_delivery_empties_buffer (N : Z) (chunks : list eventChunk) :
  0 ≤ N < 2 ^ 63 →
  offset <$> chunks ≡ₚ seqZ 0 N →
  chunkBuf (collect chunks) = ∅ ∧ chunksWritten (collect chunks) = N.
Proof.
  intros HN Hperm.
  assert (delivered N chunks) as Hdel.
  { split; [lia | |].
    - rewrite Hperm. apply NoDup_seqZ.
    - apply Forall_forall. intros c Hc.
      assert (offset c ∈ seqZ 0 N) as Hin
        by (rewrite <- Hperm; by apply list_elem_of_fmap_2).
      apply elem_of_seqZ in Hin. lia. }
  assert (nextOffset (collect chunks) = N) as Hnext.
  { apply (collect_stops_at_gap N); [done | lia | |].
    - intros i Hi. rewrite Hperm. apply elem_of_seqZ. lia.
    - rewrite Hperm. intros Hin%elem_of_seqZ. lia. }
  split; [|by rewrite collect_counts].
  destruct (collect_ordered N chunks Hdel) as [[_ _ _ Hbuf _] _].
  apply map_eq. intros k. rewrite lookup_empty.
  destruct (chunkBuf (collect chunks) !! k) as [c|] eqn:Hk; [|done].
  exfalso. destruct (Hbuf _ _ Hk) as (Hle & Hin & Hoff).
  pose proof (delivered_lt _ _ _ Hdel Hin). lia.
Qed.

Lemma complete_delivery_empties_buffer_witness :
  chunkBuf (collect [EventChunk 1 "b"; EventChunk 2 "c"; EventChunk 0 "a"]) = ∅ ∧
  chunksWritten (collect [EventChunk 1 "b"; EventChunk 2 "c"; EventChunk 0 "a"]) = 3.
Proof.
  refine (complete_delivery_empties_buffer 3
    [EventChunk 1 "b"; EventChunk 2 "c"; EventChunk 0 "a"] _ _).
  - lia.
  - apply (bool_decide_unpack _). vm_compute. exact I.
Defined.

End CollectorMore.

(** ** More on the page decoders and the results request *)

Module DecoderMore.
Import splunkclient.

(** X5. The tabular decoder never adds or reorders bytes: at every offset its
    result is the response with at most one leading line (text without a
    newline, then the newline) removed. *)
Theorem csv_decoder_cuts_at_most_one_line (response : string) (offset : Z) :
  ∃ cut, response = cut +:+ parseCSVResponse response offset ∧
         (cut = "" ∨ ∃ line, no_newline line ∧ cut = line +:+ String newline "").
Proof.
  unfold parseCSVResponse. case_decide as Hoff; [|by exists ""; split; [|left]].
  case_decide as Hidx; [|by exists ""; split; [|left]].
  clear Hoff. revert Hidx. unfold slice_from, no_newline.
  induction response as [|a response IH]; [done|].
  cbn [strings_IndexByte].
  destruct (decide (a = newline)) as [->|Hne].
  - intros _. exists (String newline ""). split; [done|]. right. by exists "".
  - destruct (decide (strings_IndexByte response newline = -1)) as [Hno|Hyes]; [done|].
    intros _. destruct (IH Hyes) as (cut & Hcut & Hshape).
    pose proof (DecoderSpec.IndexByte_range response newline) as Hrange.
    replace (Z.to_nat (strings_IndexByte response newline + 1 + 1))
      with (S (Z.to_nat (strings_IndexByte response newline + 1))) by lia.
    cbn [string_drop].
    exists (String a cut). split.
    + rewrite string_app_cons. by f_equal.
    + right. destruct Hshape as [-> | (line & Hline & ->)].
      * exfalso. rewrite string_app_nil_l in Hcut.
        assert (∀ (n : nat) (s : string), s = string_drop (S n) s → s = "") as Hfix.
        { clear. intros n s. revert n. induction s as [|b s IHs]; intros n; [done|].
          cbn [string_drop]. intros Heq.
          assert (String.length (string_drop n s) ≤ String.length s)%nat as Hlen.
          { clear. revert s. induction n as [|n IHn]; intros s; [done|].
            destruct s as [|b s]; cbn [string_drop String.length]; [lia|].
            specialize (IHn s). lia. }
          rewrite <- Heq in Hlen. cbn [String.length] in Hlen. lia. }
        replace (Z.to_nat (strings_IndexByte response newline + 1))
          with (S (Z.to_nat (strings_IndexByte response newline))) in Hcut by lia.
        apply Hfix in Hcut. subst response. by apply Hyes.
      * exists (String a line). split; [|by rewrite string_app_cons].
        cbn [strings_IndexByte]. rewrite decide_False by done.
        by rewrite Hline, decide_True.
Qed.

(** X6. In ndjson mode a page that unmarshals is re-encoded as one line per
    result row that marshals, in the order of the rows, each followed by a
    newline; every row that does not marshal is skipped and logged once. *)
Theorem ndjson_page_is_one_line_per_row `{Platform}
    (response : string) (results : list JSONObject) :
  json_Unmarshal_Results response = Ok results →
  fst (parseJSONResponse response) =
    concat_strings ((λ line, line +:+ String newline "") <$> marshalled results) ∧
  (length (snd (parseJSONResponse response)) + length (marshalled results)
   = length results)%nat.
Proof.
  intros Hjson. unfold parseJSONResponse. rewrite Hjson. clear Hjson.
  induction results as [|r results [IHout IHlog]]; [done|].
  cbn [marshal_lines]. unfold marshalled in *. cbn [omap list_omap].
  destruct (marshal_lines results) as [sb lg]. simpl in IHout, IHlog.
  destruct (json_Marshal r) as [line|err]; simpl.
  - split; [|lia]. rewrite IHout.
    change (concat_strings (?x :: ?l)) with (x +:+ concat_strings l).
    by rewrite string_app_assoc.
  - split; [done | lia].
Qed.

Lemma ndjson_page_is_one_line_per_row_witness :
  fst (@parseJSONResponse MoreExamples.rows_platform "a NaN b") =
    String "a" (String newline (String "b" (String newline ""))) ∧
  (length (snd (@parseJSONResponse MoreExamples.rows_platform "a NaN b")) + 2 = 3)%nat.
Proof.
  refine (@ndjson_page_is_one_line_per_row MoreExamples.rows_platform
    "a NaN b" ["a"; "NaN"; "b"] _).
  reflexivity.
Defined.

(** X7. [GetJobResults] fails exactly when the transport fails, with the
    transport's error: no decoding problem in any output mode is ever
    returned as an error. *)
Theorem results_error_is_transport_error `{Platform}
    (c : Client) (sid : string) (count offset : Z) (outputMode : string) (err : error) :
  fst (GetJobResults c sid count offset outputMode) = Err err ↔
  Get c (resultsPath sid) (resultsQuery count offset outputMode) = Err err.
Proof.
  unfold GetJobResults.
  destruct (Get c (resultsPath sid) (resultsQuery count offset outputMode))
    as [response|e].
  - destruct (parseResultsResponse response outputMode offset). simpl. split; congruence.
  - simpl. split; congruence.
Qed.

Lemma resultsQuery_lookup (count offset : Z) (outputMode : string) :
  resultsQuery count offset outputMode !! "count" = Some (pretty count) ∧
  resultsQuery count offset outputMode !! "offset" = Some (pretty (int_wrap (offset * count))) ∧
  resultsQuery count offset outputMode !! "output_mode" = Some outputMode.
Proof.
  unfold resultsQuery. split; [|split].
  - by rewrite lookup_insert_eq.
  - rewrite lookup_insert_ne by done. by rewrite lookup_insert_eq.
  - rewrite !lookup_insert_ne by done. by rewrite lookup_singleton_eq.
Qed.

(** X8. The request for page [i] asks for [count] results from offset
    [i * count], and different pages ask for different offsets (as long as
    [i * count] is a Go [int]): no two pages fetch the same slice. *)
Theorem pages_request_distinct_slices (count i j : Z) (outputMode : string) :
  0 < count →
  0 ≤ i → i * count < 2 ^ 63 →
  0 ≤ j → j * count < 2 ^ 63 →
  resultsQuery count i outputMode !! "offset" = Some (pretty (i * count)) ∧
  resultsQuery count i outputMode !! "count" = Some (pretty count) ∧
  (resultsQuery count i outputMode = resultsQuery count j outputMode → i = j).
Proof.
  intros Hcount Hi Hiw Hj Hjw.
  destruct (resultsQuery_lookup count i outputMode) as (Hc & Ho & _).
  rewrite int_wrap_id in Ho by nia.
  split; [done|]. split; [done|].
  intros Heq.
  destruct (resultsQuery_lookup count j outputMode) as (_ & Ho' & _).
  rewrite int_wrap_id in Ho' by nia.
  rewrite Heq, Ho' in Ho. injection Ho as Ho.
  apply (inj pretty) in Ho. nia.
Qed.

Lemma pages_request_distinct_slices_witness :
  resultsQuery 10000 3 "csv" !! "offset" = Some "30000".
Proof.
  refine (proj1 (pages_request_distinct_slices 10000 3 4 "csv" _ _ _ _ _)); lia.
Defined.

End DecoderMore.

(** ** More on the download as a whole *)

Module DownloadMore.
Import splunkclient Collector CollectorFacts CollectorOrder downloader DownloaderFacts.
Import EngineSpec.

Section Download.
Context `{Platform}.
Implicit Types (d : Downloader) (sched : Scheduler) (js : SearchJobContent).

Lemma concat_strings_empty (l : list string) :
  Forall (λ s, s = "") l → concat_strings l = "".
Proof. induction 1 as [|s l -> _ IH]; [done|]. simpl. by rewrite IH. Qed.

Lemma chunkWorker_log_nil d (l : list Z) :
  (∀ o, o ∈ l → snd (getEventChunk d o) = []) → snd (chunkWorker d l) = [].
Proof.
  unfold chunkWorker. simpl. induction l as [|o l IH]; intros Hall; [done|].
  simpl. rewrite (Hall o) by apply list_elem_of_here.
  apply IH. intros o' Ho'. apply Hall. by apply list_elem_of_further.
Qed.

(** The engine returns whenever the page count fits the channels. *)
Lemma downloadJobChunks_fits d sched (N : Z) :
  N ≤ chanCap → ∃ eff, downloadJobChunks d sched N = Returns None eff ∧
                       (maxConnections d ≤ 0 → fetches eff = []) ∧
                       deletes eff = [].
Proof.
  intros HN. destruct (decide (maxConnections d ≤ 0)) as [Hnone|Hsome].
  - unfold downloadJobChunks. rewrite !decide_True by done.
    destruct (eventChunkCollector d []) as [file lg]. by eexists.
  - rewrite downloadJobChunks_workers by (done || lia). cbv zeta.
    eexists. split; [done|]. split; [intros; lia | done].
Qed.

(** X9. In raw mode, when the server serves all [N] pages, the output file
    is byte-identical to the pages' bodies concatenated in index order,
    whatever the order of arrival, and nothing is logged as an error. *)
Theorem raw_download_is_byte_identical d sched (N : Z) (body : Z → string) :
  outputMode d = "raw" →
  0 < maxConnections d →
  os_Create (filename d) = None →
  0 ≤ N < 2 ^ 63 →
  (∀ i, 0 ≤ i < N →
     Get (client d) (resultsPath (sid d)) (resultsQuery chunkSize i "raw") = Ok (body i)) →
  downloadJobChunks d sched N =
    Returns None {| fetches := arrival sched (seqZ 0 N); deletes := [];
                    output := Some (concat_strings (body <$> seqZ 0 N)); log := [] |}.
Proof.
  intros Hmode Hworkers Hcreate HN Hserved.
  assert (∀ i, 0 ≤ i < N →
            getEventChunk d i = (Some {| offset := i; data := body i |}, [])) as Hchunk.
  { intros i Hi. unfold getEventChunk, GetJobResults. rewrite Hmode.
    by rewrite (Hserved i Hi). }
  rewrite downloadJobChunks_created by done. cbv zeta. do 2 f_equal.
  f_equal.
  - f_equal. rewrite (workers_written d sched N N); [|lia|lia| |lia].
    + f_equal. apply list_fmap_ext. intros n i [-> Hlt]%lookup_seqZ.
      unfold page. by rewrite Hchunk by lia.
    + intros i Hi. by rewrite Hchunk by lia.
  - apply chunkWorker_log_nil. intros o Ho.
    rewrite arrival_perm in Ho. apply elem_of_seqZ in Ho.
    by rewrite Hchunk by lia.
Qed.

(** X10. An output mode other than raw, csv and ndjson is not refused: every
    page that is served decodes to the empty string without an error, so the
    download returns nil and leaves an empty output file. *)
Theorem unknown_mode_writes_an_empty_file d sched (N : Z) :
  ¬ known_mode (outputMode d) →
  0 < maxConnections d →
  os_Create (filename d) = None →
  0 ≤ N < 2 ^ 63 →
  (∀ i response,
     Get (client d) (resultsPath (sid d)) (resultsQuery chunkSize i (outputMode d))
       = Ok response →
     GetJobResults (client d) (sid d) chunkSize i (outputMode d) = (Ok "", [])) ∧
  ∃ eff, downloadJobChunks d sched N = Returns None eff ∧ output eff = Some "".
Proof.
  intros Hmode Hworkers Hcreate HN.
  assert (∀ response i, parseResultsResponse response (outputMode d) i = ("", [])) as Hparse.
  { intros response i. unfold parseResultsResponse, known_mode in *.
    repeat case_decide; tauto. }
  split.
  - intros i response Hget. unfold GetJobResults. by rewrite Hget, Hparse.
  - rewrite downloadJobChunks_created by done. cbv zeta.
    eexists. split; [done|]. cbn [output]. f_equal.
    destruct (first_missing_spec d N) as (Hrange & Hbelow & Hfail); [lia|].
    rewrite (workers_written d sched N (first_missing d N)); [|lia|lia|done|done].
    apply concat_strings_empty, Forall_fmap, Forall_forall. intros i _. simpl.
    unfold page, getEventChunk, GetJobResults.
    destruct (Get _ _ _) as [response|err]; [|done]. by rewrite Hparse.
Qed.

(** X11. When the server knows no job under the sid (the status answer has
    no entry), the download stops with
    ["failed to get job status: no job found for sid <sid>"] before anything
    is fetched, deleted or written. *)
Theorem unknown_job_aborts_download d sched (response : string) :
  Get (client d) ("/services/search/v2/jobs/" +:+ sid d) {["output_mode" := "json"]}
    = Ok response →
  json_Unmarshal_Status (client d) response = Ok {| Entry := [] |} →
  DownloadSearchResults d sched =
    Returns (Some ("failed to get job status: no job found for sid " +:+ sid d))
      no_effects.
Proof.
  intros Hget Hjson. unfold DownloadSearchResults, GetJobStatus.
  by rewrite Hget, Hjson.
Qed.

(** X12. A delete request is sent only with delete-on-completion configured
    and only after the pages were downloaded from a job that passed the
    readiness gate, and then exactly once, for the job's own sid. *)
Theorem delete_only_when_configured d sched (err : option error) (eff : effects) :
  DownloadSearchResults d sched = Returns err eff →
  deletes eff = [] ∨
  (deletes eff = [sid d] ∧ deleteWhenDone d = true ∧
   ∃ js, GetJobStatus (client d) (sid d) = Ok js ∧ IsDone js = true ∧
         IsFailed js = false ∧ ResultCount js ≤ 500000).
Proof.
  unfold DownloadSearchResults.
  destruct (GetJobStatus (client d) (sid d)) as [js|e] eqn:Hst;
    [|intros [= _ <-]; by left].
  destruct (IsDone js) eqn:Hdone; simpl; [|intros [= _ <-]; by left].
  destruct (IsFailed js) eqn:Hfailed; [intros [= _ <-]; by left|].
  case_decide as Hcount; [intros [= _ <-]; by left|].
  destruct (downloadJobChunks d sched (totalChunks js)) as [[e|] eff0|] eqn:Hrun;
    [| |done].
  - exfalso. unfold downloadJobChunks in Hrun.
    repeat (case_decide || destruct (chunkWorker _ _) || destruct (eventChunkCollector _ _)
            || destruct (os_Create _)); congruence.
  - assert (deletes eff0 = []) as Hnodel.
    { unfold downloadJobChunks in Hrun.
      repeat (case_decide || destruct (chunkWorker _ _) || destruct (eventChunkCollector _ _)
              || destruct (os_Create _)); try congruence;
        by injection Hrun as <-. }
    destruct (deleteWhenDone d) eqn:Hdel.
    + destruct (DeleteSearchJob (client d) (sid d)); intros [= _ <-];
        right; (split; [done|]); (split; [done|]); exists js; repeat split; (done || lia).
    + intros [= _ <-]. by left.
Qed.

(** X13. A job that passes the gate has at most 51 pages, fewer than the
    channels hold: [DownloadSearchResults] never blocks, whatever the worker
    count, the schedule and the answers of the server. *)
Theorem download_never_blocks d sched :
  (∀ js, GetJobStatus (client d) (sid d) = Ok js → - 2 ^ 63 ≤ ResultCount js) →
  ∃ err eff, DownloadSearchResults d sched = Returns err eff.
Proof.
  intros Hint. unfold DownloadSearchResults.
  destruct (GetJobStatus (client d) (sid d)) as [js|e] eqn:Hst; [|by eexists _, _].
  destruct (IsDone js); simpl; [|by eexists _, _].
  destruct (IsFailed js); [by eexists _, _|].
  case_decide as Hcount; [by eexists _, _|].
  destruct (downloadJobChunks_fits d sched (totalChunks js)) as (eff & -> & _).
  { pose proof (totalChunks_fits js). specialize (Hint js eq_refl).
    unfold chanCap. lia. }
  destruct (deleteWhenDone d); [|by eexists _, _].
  destruct (DeleteSearchJob (client d) (sid d)); by eexists _, _.
Qed.

(** X14. With a worker count of zero or less no page is ever requested, and
    yet the download of a job that passes the gate returns nil, having
    created an empty output file. *)
Theorem no_workers_empty_success d sched js :
  maxConnections d ≤ 0 →
  GetJobStatus (client d) (sid d) = Ok js →
  IsDone js = true → IsFailed js = false →
  - 2 ^ 63 ≤ ResultCount js ≤ 500000 →
  os_Create (filename d) = None →
  deleteWhenDone d = false →
  DownloadSearchResults d sched =
    Returns None {| fetches := []; deletes := []; output := Some ""; log := [] |}.
Proof.
  intros Hnone Hst Hdone Hfailed Hcount Hcreate Hdel.
  rewrite (DownloadSearchResults_ready d sched js) by (done || lia).
  unfold downloadJobChunks, eventChunkCollector.
  rewrite decide_True by done.
  rewrite decide_True by (pose proof (totalChunks_fits js Hcount); unfold chanCap; lia).
  by rewrite Hcreate, Hdel.
Qed.

End Download.
End DownloadMore.

Module DownloadMoreWitnesses.
Import splunkclient Collector downloader.

Lemma raw_download_is_byte_identical_witness :
  @downloadJobChunks (Examples.platform None)
    (Examples.job (Examples.full_server None (Ok "{}")) "raw" false) Examples.lifo 3 =
  Returns None {| fetches := [2; 1; 0]; deletes := [];
                  output := Some "p0;p1;p2;"; log := [] |}.
Proof.
  refine (@DownloadMore.raw_download_is_byte_identical (Examples.platform None)
    (Examples.job (Examples.full_server None (Ok "{}")) "raw" false) Examples.lifo 3
    MoreExamples.body _ _ _ _ _).
  - reflexivity.
  - simpl. lia.
  - reflexivity.
  - lia.
  - intros i Hi.
    assert (i = 0 ∨ i = 1 ∨ i = 2) as [-> | [-> | ->]] by lia; reflexivity.
Defined.

Lemma unknown_mode_writes_an_empty_file_witness :
  ∃ eff,
    @downloadJobChunks (Examples.platform None)
      (Examples.job (Examples.full_server None (Ok "{}")) "json" false) Examples.fifo 3
      = Returns None eff ∧
    output eff = Some "".
Proof.
  refine (proj2 (@DownloadMore.unknown_mode_writes_an_empty_file (Examples.platform None)
    (Examples.job (Examples.full_server None (Ok "{}")) "json" false) Examples.fifo 3
    _ _ _ _)).
  - intros [Hm | [Hm | Hm]]; discriminate Hm.
  - simpl. lia.
  - reflexivity.
  - lia.
Defined.

Lemma unknown_job_aborts_download_witness :
  @DownloadSearchResults (Examples.platform None)
    (Examples.job MoreExamples.empty_server "csv" true) Examples.fifo =
  Returns (Some "failed to get job status: no job found for sid 1756172871.1180")
    no_effects.
Proof.
  refine (@DownloadMore.unknown_job_aborts_download (Examples.platform None)
    (Examples.job MoreExamples.empty_server "csv" true) Examples.fifo "{}" _ _).
  - reflexivity.
  - reflexivity.
Defined.

Lemma delete_only_when_configured_witness :
  [] = @nil string ∨
  ([] = ["1756172871.1180"] ∧
   deleteWhenDone (Examples.job (Examples.gap_server None) "raw" false) = true ∧
   ∃ js, @GetJobStatus (Examples.platform None) (Examples.gap_server None)
           "1756172871.1180" = Ok js ∧
         IsDone js = true ∧ IsFailed js = false ∧ ResultCount js ≤ 500000).
Proof.
  refine (@DownloadMore.delete_only_when_configured (Examples.platform None)
    (Examples.job (Examples.gap_server None) "raw" false) Examples.fifo None
    {| fetches := [0; 1; 2]; deletes := []; output := Some "p0;";
       log := [slog_Error "Error getting event chunk"
                 "HTTP 500: 500 Internal Server Error" [("offset", "1")]] |} _).
  by vm_compute.
Defined.

Lemma download_never_blocks_witness :
  ∃ err eff,
    @DownloadSearchResults (Examples.platform Examples.denied)
      (Examples.job (Examples.full_server Examples.denied (Ok "{}")) "raw" true)
      Examples.lifo = Returns err eff.
Proof.
  refine (@DownloadMore.download_never_blocks (Examples.platform Examples.denied)
    (Examples.job (Examples.full_server Examples.denied (Ok "{}")) "raw" true)
    Examples.lifo _).
  intros js Hjs. vm_compute in Hjs. injection Hjs as <-. by vm_compute.
Defined.

Lemma no_workers_empty_success_witness :
  @DownloadSearchResults (Examples.platform None)
    (MoreExamples.job_with (Examples.full_server None (Ok "{}")) "raw" 0)
    Examples.fifo =
  Returns None {| fetches := []; deletes := []; output := Some ""; log := [] |}.
Proof.
  refine (@DownloadMore.no_workers_empty_success (Examples.platform None)
    (MoreExamples.job_with (Examples.full_server None (Ok "{}")) "raw" 0)
    Examples.fifo (@Examples.status (Examples.platform None) 25000 true false 1000)
    _ _ _ _ _ _ _).
  - simpl. lia.
  - reflexivity.
  - reflexivity.
  - reflexivity.
  - simpl. lia.
  - reflexivity.
  - reflexivity.
Defined.

End DownloadMoreWitnesses.

(** ** Creating a job and waiting for it *)

Module JobsSpec.
Import splunkclient splunkjobs.




(** X16. [WaitUntilJobIsDone] keeps polling while the job is reported not
    done, and ends at the first poll that fails (with that error, wrapped)
    or reports the job done (with nil), whether or not the job has failed. *)
Theorem wait_ends_at_first_done_or_error `{Platform}
    (pending rest : list Client) (c : Client) (sid : string) :
  Forall (λ p, ∃ js, GetJobStatus p sid = Ok js ∧ IsDone js = false) pending →
  WaitUntilJobIsDone pending sid = None ∧
  WaitUntilJobIsDone (pending ++ c :: rest) sid =
    match GetJobStatus c sid with
    | Err err => Some (Some ("failed to get job status: " +:+ err))
    | Ok js => if IsDone js then Some None else WaitUntilJobIsDone rest sid
    end.
Proof.
  induction 1 as [|p pending (js & Hp & Hnot) _ [IHnone IHend]]; [done|].
  simpl. by rewrite Hp, Hnot.
Qed.

Lemma wait_ends_at_first_done_or_error_witness :
  @WaitUntilJobIsDone (Examples.platform None)
    ([Examples.bare_server None 25000 false false] ++
     Examples.bare_server None 25000 true true :: [])
    "1756172871.1180" = Some None.
Proof.
  refine (proj2 (@wait_ends_at_first_done_or_error (Examples.platform None)
    [Examples.bare_server None 25000 false false] []
    (Examples.bare_server None 25000 true true) "1756172871.1180" _)).
  apply Forall_cons. split; [|apply Forall_nil_2].
  eexists. split; reflexivity.
Defined.

End JobsSpec.

(** ** The command line *)

Module CliSpec.
Import splunkclient splunkjobs downloader config cli.

(** What [main] has checked when it goes on to create the client. *)
Lemma main_setup_proceeds (flags : Flags) (args : list string)
    (getenv : string → string) (cc : ClientConfig) (file mode : string) :
  main_setup flags args getenv = Proceed cc file mode →
  (∃ more, args = file :: more) ∧ help flags = false ∧
  ¬ (search flags = "" ∧ sid_flag flags = "") ∧
  (mode = "ndjson" ∧ filepath_Ext file = ".ndjson" ∨
   mode = "csv" ∧ filepath_Ext file = ".csv" ∨
   mode = "raw" ∧ filepath_Ext file = ".txt") ∧
  Host cc = host flags ∧ Port cc = port flags ∧
  UseTLS cc = true ∧ VerifyTLS cc = negb (insecure flags) ∧
  (or_env getenv (token flags) "SPLUNK_TOKEN" ≠ "" ∧
   Auth cc = {| Type_ := AuthToken; Username := ""; Password := "";
                Token := or_env getenv (token flags) "SPLUNK_TOKEN" |}
   ∨
   or_env getenv (token flags) "SPLUNK_TOKEN" = "" ∧
   or_env getenv (username flags) "SPLUNK_USERNAME" ≠ "" ∧
   or_env getenv (password flags) "SPLUNK_PASSWORD" ≠ "" ∧
   Auth cc = {| Type_ := AuthHTTPBasic;
                Username := or_env getenv (username flags) "SPLUNK_USERNAME";
                Password := or_env getenv (password flags) "SPLUNK_PASSWORD";
                Token := "" |}).
Proof.
  unfold main_setup. destruct args as [|filename more]; [done|].
  destruct (help flags); [done|].
  case_decide as Hjob; [done|].
  assert (∀ auth,
    match (if decide (filepath_Ext filename = ".ndjson") then Some "ndjson"
           else if decide (filepath_Ext filename = ".csv") then Some "csv"
           else if decide (filepath_Ext filename = ".txt") then Some "raw"
           else None) with
    | None => Stop 1 ["Output file must have .json, .csv, or .txt extension"]
    | Some outputMode =>
        Proceed {| Host := host flags; Port := port flags; Auth := auth;
                   UseTLS := true; VerifyTLS := negb (insecure flags) |}
          filename outputMode
    end = Proceed cc file mode →
    file = filename ∧
    (mode = "ndjson" ∧ filepath_Ext file = ".ndjson" ∨
     mode = "csv" ∧ filepath_Ext file = ".csv" ∨
     mode = "raw" ∧ filepath_Ext file = ".txt") ∧
    cc = {| Host := host flags; Port := port flags; Auth := auth;
            UseTLS := true; VerifyTLS := negb (insecure flags) |}) as Hmode.
  { intros auth. repeat case_decide; intros [= <- <- <-]; split; try done; split; auto. }
  destruct (decide (or_env getenv (token flags) "SPLUNK_TOKEN" ≠ "")) as [Htoken|Htoken].
  - intros Hsetup. destruct (Hmode _ Hsetup) as (-> & Hext & ->).
    split; [by eexists|]. repeat (split; [done|]). left. done.
  - destruct (decide (or_env getenv (username flags) "SPLUNK_USERNAME" ≠ "" ∧
                      or_env getenv (password flags) "SPLUNK_PASSWORD" ≠ ""))
      as [Hbasic|Hbasic]; [|done].
    intros Hsetup. destruct (Hmode _ Hsetup) as (-> & Hext & ->).
    split; [by eexists|]. repeat (split; [done|]). right.
    destruct Hbasic. repeat split; try done.
    by destruct (decide (or_env getenv (token flags) "SPLUNK_TOKEN" = "")).
Qed.

(** X17. An output file whose extension is not [.ndjson], [.csv] or [.txt]
    is refused with exit status 1 before any request is made; that holds for
    [.json] too, the extension the printed message and the usage line name. *)
Theorem main_refuses_other_extensions `{Platform} (flags : Flags)
    (file : string) (more : list string) (getenv : string → string)
    (connect : ClientConfig → Session) (sched : Scheduler) :
  help flags = false →
  ¬ (search flags = "" ∧ sid_flag flags = "") →
  or_env getenv (token flags) "SPLUNK_TOKEN" ≠ "" ∨
    (or_env getenv (username flags) "SPLUNK_USERNAME" ≠ "" ∧
     or_env getenv (password flags) "SPLUNK_PASSWORD" ≠ "") →
  filepath_Ext file ≠ ".ndjson" → filepath_Ext file ≠ ".csv" →
  filepath_Ext file ≠ ".txt" →
  main flags (file :: more) getenv connect sched =
    Exits 1 ["Output file must have .json, .csv, or .txt extension"] [] None.
Proof.
  intros Hhelp Hjob Hauth Hnd Hcsv Htxt. unfold main, main_setup.
  rewrite Hhelp. rewrite decide_False by done.
  rewrite (decide_False (P := filepath_Ext file = ".ndjson")) by done.
  rewrite (decide_False (P := filepath_Ext file = ".csv")) by done.
  rewrite (decide_False (P := filepath_Ext file = ".txt")) by done.
  destruct Hauth as [Htok | Hbasic].
  - by rewrite decide_True.
  - case_decide; [done|]. by rewrite decide_True.
Qed.

Lemma main_refuses_other_extensions_witness :
  @main (Examples.platform None) (MoreExamples.flags_for "1756172871.1180" "tok" false)
    ["results.json"] MoreExamples.no_env (MoreExamples.session None) Examples.fifo =
  Exits 1 ["Output file must have .json, .csv, or .txt extension"] [] None.
Proof.
  refine (@main_refuses_other_extensions (Examples.platform None)
    (MoreExamples.flags_for "1756172871.1180" "tok" false) "results.json" []
    MoreExamples.no_env (MoreExamples.session None) Examples.fifo _ _ _ _ _ _).
  - reflexivity.
  - intros [_ Hsid]. discriminate Hsid.
  - left. intros Htok. discriminate Htok.
  - intros Hext. discriminate Hext.
  - intros Hext. discriminate Hext.
  - intros Hext. discriminate Hext.
Defined.

(** X18. Whenever [main] ends after a download, that download ran on the
    first argument as output file, in the mode given by its extension (one
    [parseResultsResponse] knows), with the worker count and the delete flag
    of the command line; the exit status is 0 exactly when
    [DownloadSearchResults] returned nil. *)
Theorem main_download_is_as_requested `{Platform} (flags : Flags)
    (args : list string) (getenv : string → string)
    (connect : ClientConfig → Session) (sched : Scheduler)
    (code : Z) (printed : list string) (logged : list logEntry) (eff : effects) :
  main flags args getenv connect sched = Exits code printed logged (Some eff) →
  ∃ d err,
    DownloadSearchResults d sched = Returns err eff ∧
    (code = 0 ∧ err = None ∨ code = 1 ∧ is_Some err) ∧
    known_mode (outputMode d) ∧
    head args = Some (filename d) ∧
    maxConnections d = concurrency flags ∧
    deleteWhenDone d = deleteWhenDone_flag flags ∧
    (sid_flag flags ≠ "" → sid d = sid_flag flags).
Proof.
  unfold main. destruct (main_setup flags args getenv) as [c p|cc file mode] eqn:Hsetup;
    [done|].
  destruct (main_setup_proceeds _ _ _ _ _ _ Hsetup)
    as ([more ->] & _ & _ & Hmode & _).
  assert (known_mode mode) as Hknown.
  { unfold known_mode. destruct Hmode as [[-> _] | [[-> _] | [-> _]]]; auto. }
  set (run := λ sid0 : string,
    match DownloadSearchResults
            (NewDownloader (during_download (connect cc))
               {| OutputMode := mode; DeleteWhenDone := deleteWhenDone_flag flags;
                  MaxConnections := concurrency flags; SID := sid0;
                  Filename := file |}) sched with
    | Blocks => Never
    | Returns (Some err) eff0 =>
        Exits 1 [] (log eff0 ++ [slog_Error "Failed to download search results" err []])
          (Some eff0)
    | Returns None eff0 => Exits 0 [] (log eff0) (Some eff0)
    end).
  assert (∀ sid0, run sid0 = Exits code printed logged (Some eff) →
    ∃ d err,
      DownloadSearchResults d sched = Returns err eff ∧
      (code = 0 ∧ err = None ∨ code = 1 ∧ is_Some err) ∧
      known_mode (outputMode d) ∧ Some file = Some (filename d) ∧
      maxConnections d = concurrency flags ∧
      deleteWhenDone d = deleteWhenDone_flag flags ∧ sid d = sid0) as Hrun.
  { intros sid0. unfold run.
    destruct (DownloadSearchResults _ sched) as [[e|] eff0|] eqn:Hdl; [| |done].
    - intros [= <- _ _ <-]. eexists _, _. split; [exact Hdl|].
      split; [right; by eauto|]. done.
    - intros [= <- _ _ <-]. eexists _, _. split; [exact Hdl|].
      split; [by left|]. done. }
  case_decide as Hsid.
  - destruct (NewSearchJob _ _ _ _) as [sid0|e]; [|done].
    destruct (WaitUntilJobIsDone _ sid0) as [[e|]|]; [done| |done].
    intros Hend. destruct (Hrun sid0 Hend) as (d & err & ? & ? & ? & ? & ? & ? & ?).
    exists d, err. repeat split; try done.
  - intros Hend.
    destruct (Hrun (sid_flag flags) Hend) as (d & err & ? & ? & ? & ? & ? & ? & ?).
    exists d, err. repeat split; try done.
Qed.

(** X19. The client is always configured for TLS, with certificate
    verification unless [--insecure] is given, and a token (from the flag, or
    else from [SPLUNK_TOKEN]) takes precedence: user name and password are
    used only when there is no token and both are present. *)
Theorem setup_chooses_auth_and_tls (flags : Flags) (args : list string)
    (getenv : string → string) (cc : ClientConfig) (file mode : string) :
  main_setup flags args getenv = Proceed cc file mode →
  UseTLS cc = true ∧ VerifyTLS cc = negb (insecure flags) ∧
  (or_env getenv (token flags) "SPLUNK_TOKEN" ≠ "" →
     Type_ (Auth cc) = AuthToken ∧
     Token (Auth cc) = or_env getenv (token flags) "SPLUNK_TOKEN" ∧
     Username (Auth cc) = "" ∧ Password (Auth cc) = "") ∧
  (or_env getenv (token flags) "SPLUNK_TOKEN" = "" →
     Type_ (Auth cc) = AuthHTTPBasic ∧
     Username (Auth cc) = or_env getenv (username flags) "SPLUNK_USERNAME" ∧
     Password (Auth cc) = or_env getenv (password flags) "SPLUNK_PASSWORD" ∧
     Username (Auth cc) ≠ "" ∧ Password (Auth cc) ≠ "").
Proof.
  intros Hsetup.
  destruct (main_setup_proceeds _ _ _ _ _ _ Hsetup)
    as (_ & _ & _ & _ & _ & _ & Htls & Hverify & Hauth).
  split; [done|]. split; [done|]. split.
  - intros Htok. destruct Hauth as [[_ ->] | [Hno _]]; [done | congruence].
  - intros Htok. destruct Hauth as [[Hyes _] | (_ & Hu & Hp & ->)]; [congruence | done].
Qed.

Lemma setup_chooses_auth_and_tls_witness :
  UseTLS {| Host := "splunk.example.com"; Port := 8089;
            Auth := {| Type_ := AuthToken; Username := ""; Password := "";
                       Token := "tok" |};
            UseTLS := true; VerifyTLS := true |} = true.
Proof.
  refine (proj1 (setup_chooses_auth_and_tls
    (MoreExamples.flags_for "1756172871.1180" "tok" false) ["results.csv"]
    MoreExamples.no_env _ "results.csv" "csv" _)).
  reflexivity.
Defined.

(** X20. With [--sid] given, [main] neither creates a search job nor waits:
    its result does not depend on the job endpoint or on what the server
    answers at the polling ticks. *)
Theorem sid_skips_job_creation `{Platform} (flags : Flags) (args : list string)
    (getenv : string → string) (connect connect' : ClientConfig → Session)
    (sched : Scheduler) :
  sid_flag flags ≠ "" →
  (∀ cc, during_download (connect cc) = during_download (connect' cc)) →
  main flags args getenv connect sched = main flags args getenv connect' sched.
Proof.
  intros Hsid Hsame. unfold main.
  destruct (main_setup flags args getenv) as [c p|cc file mode]; [done|].
  rewrite !decide_False by done. by rewrite Hsame.
Qed.

Lemma main_download_is_as_requested_witness :
  ∃ d err,
    @DownloadSearchResults (Examples.platform None) d Examples.lifo =
      Returns err {| fetches := [2; 1; 0]; deletes := [];
                     output := Some "p0;p1;p2;"; log := [] |} ∧
    (0 = 0 ∧ err = None ∨ 0 = 1 ∧ is_Some err) ∧
    known_mode (outputMode d) ∧
    head ["results.txt"] = Some (filename d) ∧
    maxConnections d = 8 ∧
    deleteWhenDone d = false ∧
    ("1756172871.1180" ≠ "" → sid d = "1756172871.1180").
Proof.
  refine (@main_download_is_as_requested (Examples.platform None)
    (MoreExamples.flags_for "1756172871.1180" "tok" false) ["results.txt"]
    MoreExamples.no_env (MoreExamples.session None) Examples.lifo
    0 [] [] {| fetches := [2; 1; 0]; deletes := [];
               output := Some "p0;p1;p2;"; log := [] |} _).
  by vm_compute.
Defined.

Lemma sid_skips_job_creation_witness :
  @main (Examples.platform None) (MoreExamples.flags_for "1756172871.1180" "tok" false)
    ["results.txt"] MoreExamples.no_env (MoreExamples.session None) Examples.lifo =
  @main (Examples.platform None) (MoreExamples.flags_for "1756172871.1180" "tok" false)
    ["results.txt"] MoreExamples.no_env
    (λ _, {| jobs := MoreExamples.endpoint; ticks := [];
             during_download := Examples.full_server None (Ok "{}") |})
    Examples.lifo.
Proof.
  refine (@sid_skips_job_creation (Examples.platform None)
    (MoreExamples.flags_for "1756172871.1180" "tok" false) ["results.txt"]
    MoreExamples.no_env (MoreExamples.session None) _ Examples.lifo _ _).
  - intros Hsid. discriminate Hsid.
  - intros cc. reflexivity.
Defined.

End CliSpec.
